(** * Traffic-Light-Detector: colour classification and pole-height estimation

    A shallow embedding of the two numeric functions of
    [src/components/PoleHeightDetector.tsx]:

    - [estimatePoleHeight] (source lines 65-113), the perspective heuristic
      that turns a bounding box into a pole height, a confidence and a
      reference label;
    - [analyzeTrafficLightColor] (source lines 436-545), the brightness-tiered
      colour classifier run on the pixels cropped from a detection box.

    JavaScript numbers are IEEE-754 binary64 values; they are modelled by
    Rocq's primitive floats, whose operations are the same binary64
    operations (round to nearest, ties to even).  Decimal literals such as
    [0.7] denote the nearest binary64 value in both languages.  Array
    elements, their sums and sample counts are integers that binary64
    holds exactly; they are carried as [Z] and enter floating point where
    the source divides them. *)

From Stdlib Require Import ZArith Floats String List Bool Lia Permutation.
From Stdlib Require Import Uint63.
From Stdlib Require Import Sorted.
Import ListNotations.

Set Warnings "-inexact-float".

Local Open Scope Z_scope.

(** ** JavaScript values used by the component *)

(** A call either returns a value or completes abruptly with a thrown
    error (named by its message). *)
Inductive completion (A : Type) : Type :=
| Normal (v : A)
| Abrupt (thrown : string).

Arguments Normal {A} v.
Arguments Abrupt {A} thrown.

Module JS.

(** The binary64 value of an integer.  The conversion is exact for
    [|z| < 2^53], the range in which a JavaScript number holds every
    integer exactly. *)
Definition of_Z (z : Z) : float :=
  match z with
  | Z0 => PrimFloat.zero
  | Zpos _ => PrimFloat.of_uint63 (Uint63.of_Z z)
  | Zneg p => PrimFloat.opp (PrimFloat.of_uint63 (Uint63.of_Z (Zpos p)))
  end.

(** [a > b] and [a < b] on numbers: false as soon as one side is NaN. *)
Definition gt (a b : float) : bool := PrimFloat.ltb b a.
Definition lt (a b : float) : bool := PrimFloat.ltb a b.

(** [Math.abs]. *)
Definition Math_abs (x : float) : float := PrimFloat.abs x.

(** [Math.min] and [Math.max] of two arguments: NaN if either argument is
    NaN, and [-0] counts as smaller than [+0]. *)
Definition Math_min (a b : float) : float :=
  if PrimFloat.is_nan a || PrimFloat.is_nan b then PrimFloat.nan
  else if PrimFloat.ltb a b then a
  else if PrimFloat.ltb b a then b
  else if PrimFloat.get_sign a then a else b.

Definition Math_max (a b : float) : float :=
  if PrimFloat.is_nan a || PrimFloat.is_nan b then PrimFloat.nan
  else if PrimFloat.ltb b a then a
  else if PrimFloat.ltb a b then b
  else if PrimFloat.get_sign a then b else a.

(** [Math.round]: the integer nearest to [x], ties towards [+Infinity];
    NaN, the infinities and the zeros are returned unchanged, and a result
    of magnitude zero keeps the sign of [x].  For a finite
    [x = (-1)^s * m * 2^e] with [e < 0] the result is
    [floor (x + 1/2) = floor ((2 * (+-m) + 2^(-e)) / 2^(1-e))], computed
    on integers. *)
Definition Math_round (x : float) : float :=
  match Prim2SF x with
  | S754_finite s m e =>
      if 0 <=? e then x
      else
        let sm := if s then Zneg m else Zpos m in
        let n := Z.shiftr (2 * sm + Z.shiftl 1 (- e)) (1 - e) in
        if n =? 0 then (if s then PrimFloat.neg_zero else PrimFloat.zero)
        else of_Z n
  | _ => x
  end.

End JS.

(** ** [estimatePoleHeight] *)

(** [interface PoleHeight] (source lines 17-21). *)
Record PoleHeight : Type := {
  estimatedHeight : float;
  confidence : float;
  referenceUsed : string
}.

Local Open Scope float_scope.
Local Open Scope string_scope.

(** Source lines 77-94: the base estimate chosen from [positionRatio]. *)
Definition positionBase (positionRatio : float) : float * float * string :=
  if JS.gt positionRatio 0.7 then
    (4.5, 0.8, "Standard urban intersection")
  else if JS.gt positionRatio 0.4 then
    (5.2, 0.7, "Highway or major road")
  else
    (6.1, 0.6, "Highway overpass").

(** Source lines 96-106: the adjustment by the apparent size of the light. *)
Definition sizeAdjust (sizeRatio estimatedHeight confidence : float)
  : float * float :=
  if JS.gt sizeRatio 0.1 then
    (estimatedHeight * 0.9, JS.Math_min (confidence + 0.1) 0.9)
  else if JS.lt sizeRatio 0.02 then
    (estimatedHeight * 1.2, JS.Math_max (confidence - 0.1) 0.5)
  else
    (estimatedHeight, confidence).

(** Source lines 65-113.  The arguments [x1], [x2] and [imageWidth] are
    accepted and never read, as in the source.  The body contains no
    [throw] and calls nothing that can throw, so every call completes
    normally. *)
Definition estimatePoleHeight
  (x1 y1 x2 y2 imageWidth imageHeight : float) : completion PoleHeight :=
  let lightHeight := JS.Math_abs (y2 - y1) in
  let lightPosition := (y1 + y2) / 2 in
  let positionRatio := lightPosition / imageHeight in
  let '(estimatedHeight0, confidence0, referenceUsed0) :=
    positionBase positionRatio in
  let sizeRatio := lightHeight / imageHeight in
  let '(estimatedHeight1, confidence1) :=
    sizeAdjust sizeRatio estimatedHeight0 confidence0 in
  Normal {| estimatedHeight := JS.Math_round (estimatedHeight1 * 10) / 10;
            confidence := confidence1;
            referenceUsed := referenceUsed0 |}.

Local Close Scope string_scope.
Local Close Scope float_scope.

(** ** [analyzeTrafficLightColor] *)

(** One RGBA sample: four consecutive elements of the [Uint8ClampedArray]
    behind [ImageData.data], each an integer between 0 and 255. *)
Record Pixel : Type := { R : Z; G : Z; B : Z; A : Z }.

Definition u8 (z : Z) : Prop := 0 <= z <= 255.

Definition wf_pixel (p : Pixel) : Prop :=
  u8 (R p) /\ u8 (G p) /\ u8 (B p) /\ u8 (A p).

(** [ImageData]: the [data] array, viewed as its sequence of samples (its
    length is always [4 * width * height], so the loops that step by four
    visit whole samples only). *)
Record ImageData : Type := { data : list Pixel }.

(** The twelve accumulators of source lines 440-445.  They only ever hold
    sums of array elements and counts of samples, which are integers far
    below [2^53] for any array a browser can allocate, so the additions of
    the source are exact and the accumulators are carried as integers. *)
Record Sums : Type := {
  redSum : Z; greenSum : Z; blueSum : Z; brightPixels : Z;
  dimPixels : Z; dimRedSum : Z; dimGreenSum : Z; dimBlueSum : Z;
  veryDimPixels : Z; veryDimRedSum : Z; veryDimGreenSum : Z;
  veryDimBlueSum : Z
}.

Definition noSums : Sums :=
  {| redSum := 0; greenSum := 0; blueSum := 0; brightPixels := 0;
     dimPixels := 0; dimRedSum := 0; dimGreenSum := 0; dimBlueSum := 0;
     veryDimPixels := 0; veryDimRedSum := 0; veryDimGreenSum := 0;
     veryDimBlueSum := 0 |}.

(** Source line 452. *)
Definition brightness (r g b : Z) : float :=
  (JS.of_Z (r + g + b) / 3)%float.

(** Body of the first loop (source lines 449-474) for the sample [r g b]. *)
Definition scanSample (s : Sums) (r g b : Z) : Sums :=
  if JS.gt (brightness r g b) 60 then
    {| redSum := redSum s + r; greenSum := greenSum s + g;
       blueSum := blueSum s + b; brightPixels := brightPixels s + 1;
       dimPixels := dimPixels s; dimRedSum := dimRedSum s;
       dimGreenSum := dimGreenSum s; dimBlueSum := dimBlueSum s;
       veryDimPixels := veryDimPixels s; veryDimRedSum := veryDimRedSum s;
       veryDimGreenSum := veryDimGreenSum s;
       veryDimBlueSum := veryDimBlueSum s |}
  else if JS.gt (brightness r g b) 25 then
    {| redSum := redSum s; greenSum := greenSum s;
       blueSum := blueSum s; brightPixels := brightPixels s;
       dimPixels := dimPixels s + 1; dimRedSum := dimRedSum s + r;
       dimGreenSum := dimGreenSum s + g; dimBlueSum := dimBlueSum s + b;
       veryDimPixels := veryDimPixels s; veryDimRedSum := veryDimRedSum s;
       veryDimGreenSum := veryDimGreenSum s;
       veryDimBlueSum := veryDimBlueSum s |}
  else if JS.gt (brightness r g b) 10 then
    {| redSum := redSum s; greenSum := greenSum s;
       blueSum := blueSum s; brightPixels := brightPixels s;
       dimPixels := dimPixels s; dimRedSum := dimRedSum s;
       dimGreenSum := dimGreenSum s; dimBlueSum := dimBlueSum s;
       veryDimPixels := veryDimPixels s + 1;
       veryDimRedSum := veryDimRedSum s + r;
       veryDimGreenSum := veryDimGreenSum s + g;
       veryDimBlueSum := veryDimBlueSum s + b |}
  else s.

Definition scanPixel (s : Sums) (p : Pixel) : Sums :=
  scanSample s (R p) (G p) (B p).

(** The first loop (source lines 448-475). *)
Definition scan (d : list Pixel) : Sums := fold_left scanPixel d noSums.

Local Open Scope float_scope.
Local Open Scope string_scope.

(** The colour tests of the bright bucket (source lines 484-488). *)
Definition brightGreen (avgRed avgGreen avgBlue : float) : bool :=
  JS.gt avgGreen (avgRed + 8) && JS.gt avgGreen (avgBlue + 8).
Definition brightRed (avgRed avgGreen avgBlue : float) : bool :=
  JS.gt avgRed (avgGreen + 20) && JS.gt avgRed (avgBlue + 20).
Definition brightYellow (avgRed avgGreen avgBlue : float) : bool :=
  JS.gt avgRed 130 && JS.gt avgGreen 100 && JS.lt avgBlue 100.

(** The colour tests of the dim bucket (source lines 500-504). *)
Definition dimGreen (dimAvgRed dimAvgGreen dimAvgBlue : float) : bool :=
  JS.gt dimAvgGreen (dimAvgRed + 3) && JS.gt dimAvgGreen (dimAvgBlue + 3).
Definition dimRed (dimAvgRed dimAvgGreen dimAvgBlue : float) : bool :=
  JS.gt dimAvgRed (dimAvgGreen + 8) && JS.gt dimAvgRed (dimAvgBlue + 8).
Definition dimYellow (dimAvgRed dimAvgGreen dimAvgBlue : float) : bool :=
  JS.gt dimAvgRed 60 && JS.gt dimAvgGreen 45 && JS.lt dimAvgBlue 60.

(** The colour tests of the very dim bucket (source lines 516-520). *)
Definition veryDimGreen (veryDimAvgRed veryDimAvgGreen veryDimAvgBlue : float)
  : bool :=
  JS.gt veryDimAvgGreen (veryDimAvgRed + 1)
  && JS.gt veryDimAvgGreen (veryDimAvgBlue + 1)
  && JS.gt veryDimAvgGreen 15.
Definition veryDimRed (veryDimAvgRed veryDimAvgGreen veryDimAvgBlue : float)
  : bool :=
  JS.gt veryDimAvgRed (veryDimAvgGreen + 3)
  && JS.gt veryDimAvgRed (veryDimAvgBlue + 3).
Definition veryDimYellow (veryDimAvgRed veryDimAvgGreen veryDimAvgBlue : float)
  : bool :=
  JS.gt veryDimAvgRed 30 && JS.gt veryDimAvgGreen 25
  && JS.lt veryDimAvgBlue 40.

(** An [if / else if / else if] chain whose branches return a label; [None]
    when no branch is taken and control continues after the chain. *)
Definition firstRule (green red yellow : bool) : option string :=
  if green then Some "Green"
  else if red then Some "Red"
  else if yellow then Some "Yellow"
  else None.

(** The means of the three buckets (source lines 479-481, 495-497, 511-513). *)
Definition avgRed (s : Sums) : float :=
  JS.of_Z (redSum s) / JS.of_Z (brightPixels s).
Definition avgGreen (s : Sums) : float :=
  JS.of_Z (greenSum s) / JS.of_Z (brightPixels s).
Definition avgBlue (s : Sums) : float :=
  JS.of_Z (blueSum s) / JS.of_Z (brightPixels s).

Definition dimAvgRed (s : Sums) : float :=
  JS.of_Z (dimRedSum s) / JS.of_Z (dimPixels s).
Definition dimAvgGreen (s : Sums) : float :=
  JS.of_Z (dimGreenSum s) / JS.of_Z (dimPixels s).
Definition dimAvgBlue (s : Sums) : float :=
  JS.of_Z (dimBlueSum s) / JS.of_Z (dimPixels s).

Definition veryDimAvgRed (s : Sums) : float :=
  JS.of_Z (veryDimRedSum s) / JS.of_Z (veryDimPixels s).
Definition veryDimAvgGreen (s : Sums) : float :=
  JS.of_Z (veryDimGreenSum s) / JS.of_Z (veryDimPixels s).
Definition veryDimAvgBlue (s : Sums) : float :=
  JS.of_Z (veryDimBlueSum s) / JS.of_Z (veryDimPixels s).

(** The rule chains of the three buckets, on the means of each bucket. *)
Definition brightRule (s : Sums) : option string :=
  firstRule (brightGreen (avgRed s) (avgGreen s) (avgBlue s))
            (brightRed (avgRed s) (avgGreen s) (avgBlue s))
            (brightYellow (avgRed s) (avgGreen s) (avgBlue s)).

Definition dimRule (s : Sums) : option string :=
  firstRule (dimGreen (dimAvgRed s) (dimAvgGreen s) (dimAvgBlue s))
            (dimRed (dimAvgRed s) (dimAvgGreen s) (dimAvgBlue s))
            (dimYellow (dimAvgRed s) (dimAvgGreen s) (dimAvgBlue s)).

Definition veryDimRule (s : Sums) : option string :=
  firstRule
    (veryDimGreen (veryDimAvgRed s) (veryDimAvgGreen s) (veryDimAvgBlue s))
    (veryDimRed (veryDimAvgRed s) (veryDimAvgGreen s) (veryDimAvgBlue s))
    (veryDimYellow (veryDimAvgRed s) (veryDimAvgGreen s) (veryDimAvgBlue s)).

(** Source lines 478-491: the label returned inside [if (brightPixels > 0)],
    or [None] when the block is skipped or left without returning. *)
Definition brightTier (s : Sums) : option string :=
  if (0 <? brightPixels s)%Z then brightRule s else None.

(** Source lines 494-507. *)
Definition dimTier (s : Sums) : option string :=
  if (0 <? dimPixels s)%Z then dimRule s else None.

(** Source lines 510-523. *)
Definition veryDimTier (s : Sums) : option string :=
  if (0 <? veryDimPixels s)%Z then veryDimRule s else None.

(** The second loop (source lines 527-533): the channel totals of every
    sample, as [(overallRed, overallGreen, overallBlue)]. *)
Definition addOverall (t : Z * Z * Z) (p : Pixel) : Z * Z * Z :=
  let '(overallRed, overallGreen, overallBlue) := t in
  (overallRed + R p, overallGreen + G p, overallBlue + B p)%Z.

Definition overall (d : list Pixel) : Z * Z * Z :=
  fold_left addOverall d (0, 0, 0)%Z.

(** Source lines 526-544: the last-resort green test on the means of the
    whole region; [totalPixels] is [data.length / 4]. *)
Definition overallGreen (d : list Pixel) : bool :=
  let totalPixels := Z.of_nat (length d) in
  let '(overallRed, overallGreen, overallBlue) := overall d in
  let avgOverallRed := JS.of_Z overallRed / JS.of_Z totalPixels in
  let avgOverallGreen := JS.of_Z overallGreen / JS.of_Z totalPixels in
  let avgOverallBlue := JS.of_Z overallBlue / JS.of_Z totalPixels in
  JS.gt avgOverallGreen (avgOverallRed + 1)
  && JS.gt avgOverallGreen (avgOverallBlue + 1)
  && JS.gt avgOverallGreen 20.

(** Source lines 436-545.  [imageData] is [None] for [undefined].  The body
    contains no [throw]; its only property reads are on the [ImageData]
    already checked to be present. *)
Definition analyzeTrafficLightColor (imageData : option ImageData)
  : completion string :=
  match imageData with
  | None => Normal "Unknown"
  | Some img =>
      let s := scan (data img) in
      match brightTier s with
      | Some label => Normal label
      | None =>
          match dimTier s with
          | Some label => Normal label
          | None =>
              match veryDimTier s with
              | Some label => Normal label
              | None =>
                  if overallGreen (data img) then Normal "Green"
                  else Normal "Unknown"
              end
          end
      end
  end.

Local Close Scope string_scope.
Local Close Scope float_scope.

(** The three brightness bands in the words of the specification: bright
    (above 60), dim (above 25, at most 60) and very dim (above 10, at most
    25); and the totals the means of a band are computed from. *)
Definition inBright (p : Pixel) : bool :=
  JS.gt (brightness (R p) (G p) (B p)) 60.

Definition inDim (p : Pixel) : bool :=
  negb (JS.gt (brightness (R p) (G p) (B p)) 60)
  && JS.gt (brightness (R p) (G p) (B p)) 25.

Definition inVeryDim (p : Pixel) : bool :=
  negb (JS.gt (brightness (R p) (G p) (B p)) 60)
  && negb (JS.gt (brightness (R p) (G p) (B p)) 25)
  && JS.gt (brightness (R p) (G p) (B p)) 10.

Definition total (channel : Pixel -> Z) (d : list Pixel) : Z :=
  fold_right (fun p acc => channel p + acc)%Z 0%Z d.

Definition count (d : list Pixel) : Z := Z.of_nat (length d).

Definition bandSums (d : list Pixel) : Sums :=
  {| redSum := total R (filter inBright d);
     greenSum := total G (filter inBright d);
     blueSum := total B (filter inBright d);
     brightPixels := count (filter inBright d);
     dimPixels := count (filter inDim d);
     dimRedSum := total R (filter inDim d);
     dimGreenSum := total G (filter inDim d);
     dimBlueSum := total B (filter inDim d);
     veryDimPixels := count (filter inVeryDim d);
     veryDimRedSum := total R (filter inVeryDim d);
     veryDimGreenSum := total G (filter inVeryDim d);
     veryDimBlueSum := total B (filter inVeryDim d) |}.

(** Field-wise sum of two records of accumulators. *)
Definition addSums (s t : Sums) : Sums :=
  {| redSum := redSum s + redSum t;
     greenSum := greenSum s + greenSum t;
     blueSum := blueSum s + blueSum t;
     brightPixels := brightPixels s + brightPixels t;
     dimPixels := dimPixels s + dimPixels t;
     dimRedSum := dimRedSum s + dimRedSum t;
     dimGreenSum := dimGreenSum s + dimGreenSum t;
     dimBlueSum := dimBlueSum s + dimBlueSum t;
     veryDimPixels := veryDimPixels s + veryDimPixels t;
     veryDimRedSum := veryDimRedSum s + veryDimRedSum t;
     veryDimGreenSum := veryDimGreenSum s + veryDimGreenSum t;
     veryDimBlueSum := veryDimBlueSum s + veryDimBlueSum t |}%Z.

(** The colour channels of a sample, without its alpha. *)
Definition rgb (p : Pixel) : Z * Z * Z := (R p, G p, B p).

(** The loop bodies as functions of the triple of channels. *)
Definition scanTriple (s : Sums) (t : Z * Z * Z) : Sums :=
  scanSample s (fst (fst t)) (snd (fst t)) (snd t).

Definition addTriple (t u : Z * Z * Z) : Z * Z * Z :=
  (fst (fst t) + fst (fst u), snd (fst t) + snd (fst u), snd t + snd u)%Z.

(** A sample whose brightness is at most 10: the first loop skips it. *)
Definition dark (p : Pixel) : Prop :=
  PrimFloat.leb (brightness (R p) (G p) (B p)) 10 = true.

(** A region of [n] identical samples. *)
Definition uniform (n : nat) (r g b : Z) : ImageData :=
  {| data := repeat {| R := r; G := g; B := b; A := 255 |} n |}.

(** Concrete regions used to exercise the properties below. *)
Definition greyAndDimGreen : ImageData :=
  {| data := [ {| R := 100; G := 100; B := 100; A := 255 |};
               {| R := 20; G := 60; B := 20; A := 255 |} ] |}.

Definition redAndGreen : ImageData :=
  {| data := [ {| R := 200; G := 40; B := 30; A := 255 |};
               {| R := 20; G := 90; B := 10; A := 128 |} ] |}.

Definition greenAndRed : ImageData :=
  {| data := [ {| R := 20; G := 90; B := 10; A := 0 |};
               {| R := 200; G := 40; B := 30; A := 7 |} ] |}.

Definition nearBlack : ImageData :=
  {| data := [ {| R := 0; G := 0; B := 0; A := 255 |};
               {| R := 12; G := 9; B := 9; A := 255 |} ] |}.

(** ** The rest of the detection page: pipeline and presentation

    [runDetection] (source lines 367-424) turns the results of the object
    detector into the list of detections shown to the user;
    [detectPoleHeights] (lines 49-62) estimates one pole height for each;
    [DetectionResults.tsx] and [TrafficLightDetector.tsx] choose colours
    and wording from a detection.  The detector, the canvas and the
    string case mapping belong to the browser and the model library: they
    are taken as parameters. *)

Module Str.

(** [hay.includes(needle)]: [needle] occurs in [hay] as a contiguous
    substring. *)
Fixpoint includes (hay needle : string) : bool :=
  match hay with
  | EmptyString => String.prefix needle hay
  | String _ rest => String.prefix needle hay || includes rest needle
  end.

(** Lower-casing of the letters A-Z, every other character unchanged:
    [toLowerCase] on text made of ASCII characters. *)
Definition lowerChar (c : Ascii.ascii) : Ascii.ascii :=
  let n := Ascii.nat_of_ascii c in
  if (65 <=? n)%nat && (n <=? 90)%nat then Ascii.ascii_of_nat (n + 32) else c.

Fixpoint toLowerCaseAscii (s : string) : string :=
  match s with
  | EmptyString => EmptyString
  | String c rest => String (lowerChar c) (toLowerCaseAscii rest)
  end.

End Str.

Module Arr.

(** [Array.prototype.map] with a callback that may throw: the callback
    runs on the elements in order and the first throw ends the call. *)
Fixpoint map {T U : Type} (f : T -> completion U) (l : list T)
  : completion (list U) :=
  match l with
  | [] => Normal []
  | x :: rest =>
      match f x with
      | Abrupt e => Abrupt e
      | Normal y =>
          match map f rest with
          | Abrupt e => Abrupt e
          | Normal ys => Normal (y :: ys)
          end
      end
  end.

(** [Array.prototype.sort(compare)]: the sort is stable and [a] is placed
    after [b] when [compare(a, b) > 0].  For a comparator that orders the
    elements consistently the result is the same for every conforming
    engine; inserting the elements from the last to the first, each in
    front of the first element it need not follow, computes it. *)
Fixpoint insert {T : Type} (compare : T -> T -> float) (x : T) (l : list T)
  : list T :=
  match l with
  | [] => [x]
  | y :: rest =>
      if JS.gt (compare x y) 0 then y :: insert compare x rest
      else x :: l
  end.

Definition sort {T : Type} (compare : T -> T -> float) (l : list T)
  : list T :=
  fold_right (insert compare) [] l.

End Arr.

(** [a >= b] on numbers. *)
Definition JS_ge (a b : float) : bool := PrimFloat.leb b a.

(** One result of the object detector: [item.label], [item.score] and
    [item.box]. *)
Record Box : Type := { xmin : float; ymin : float; xmax : float; ymax : float }.

Module Item.
Record t : Type := { label : string; score : float; box : Box }.
End Item.

(** [interface Detection] (source lines 6-10 and 260-264). *)
Module Detection.
Record t : Type := {
  label : string;
  confidence : float;
  bbox : float * float * float * float
}.
End Detection.

(** The sixteen words looked for in a lower-cased label (source lines
    372-388), in the order of the source. *)
Definition keywords : list string :=
  [ "traffic"; "light"; "signal"; "stop"; "arrow"; "directional"; "red";
    "green"; "yellow"; "amber"; "go"; "turn"; "sign"; "lamp"; "circle";
    "square" ]%string.

Section Pipeline.

(** [String.prototype.toLowerCase]. *)
Variable toLowerCase : string -> string.

(** [img.width] and [img.height] of the analysed image. *)
Variables imgWidth imgHeight : float.

(** [ctx?.getImageData(x, y, width, height)] on the canvas holding the
    image: the pixels of the rectangle, [None] ([undefined]) when no 2D
    context could be created, or a thrown [DOMException]. *)
Variable getImageData :
  float -> float -> float -> float -> completion (option ImageData).

Local Open Scope float_scope.
Local Open Scope string_scope.

(** The first filter (source lines 369-390). *)
Definition isCandidate (item : Item.t) : bool :=
  let label := toLowerCase (Item.label item) in
  JS.gt (Item.score item) 0.1
  && existsb (fun word => Str.includes label word) keywords.

(** The rectangle handed to [getImageData] (source lines 400-403), as
    [(x, y, width, height)]. *)
Definition cropRect (b : Box) : float * float * float * float :=
  let x := JS.Math_max 0 (xmin b) in
  let y := JS.Math_max 0 (ymin b) in
  let width := JS.Math_min (imgWidth - x) (xmax b - xmin b) in
  let height := JS.Math_min (imgHeight - y) (ymax b - ymin b) in
  (x, y, width, height).

(** The callback of [map] (source lines 391-413). *)
Definition toDetection (item : Item.t) : completion Detection.t :=
  let '(x, y, width, height) := cropRect (Item.box item) in
  match getImageData x y width height with
  | Abrupt e => Abrupt e
  | Normal imageData =>
      match analyzeTrafficLightColor imageData with
      | Abrupt e => Abrupt e
      | Normal color =>
          Normal {| Detection.label := color;
                    Detection.confidence := Item.score item;
                    Detection.bbox :=
                      (x, y, xmax (Item.box item), ymax (Item.box item)) |}
      end
  end.

(** The second filter (source lines 414-417). *)
Definition isIlluminated (detection : Detection.t) : bool :=
  existsb (String.eqb (Detection.label detection)) ["Red"; "Yellow"; "Green"]
  && JS.gt (Detection.confidence detection) 0.1.

(** The comparator of the sort (source line 422). *)
Definition byConfidence (a b : Detection.t) : float :=
  Detection.confidence b - Detection.confidence a.

(** Source lines 367-424: the list handed to [setDetections], or the
    error caught by the [catch] block, in which case the detections on
    display are left as they were. *)
Definition trafficLightDetections (results : list Item.t)
  : completion (list Detection.t) :=
  match Arr.map toDetection (filter isCandidate results) with
  | Abrupt e => Abrupt e
  | Normal mapped =>
      Normal (Arr.sort byConfidence (filter isIlluminated mapped))
  end.

(** [getTrafficLightColor] of [DetectionResults.tsx] (lines 48-60). *)
Definition getTrafficLightColor (label : string) : string :=
  let l := toLowerCase label in
  if l =? "red" then
    "bg-traffic-red/20 text-traffic-red border-traffic-red/30"
  else if (l =? "yellow") || (l =? "amber") then
    "bg-traffic-yellow/20 text-traffic-yellow border-traffic-yellow/30"
  else if l =? "green" then
    "bg-traffic-green/20 text-traffic-green border-traffic-green/30"
  else "bg-primary/20 text-primary border-primary/30".

(** The [switch] of [drawDetections] in [TrafficLightDetector.tsx] (lines
    46-63), as [(color, shadowColor)]. *)
Definition boxColors (label : string) : string * string :=
  let l := toLowerCase label in
  if l =? "red" then ("#ef4444", "#dc2626")
  else if (l =? "yellow") || (l =? "amber") then ("#f59e0b", "#d97706")
  else if l =? "green" then ("#10b981", "#059669")
  else ("#3b82f6", "#2563eb").

End Pipeline.

(** The wording of the confidence of a detection ([DetectionResults.tsx]
    line 104). *)
Definition confidenceLevel (confidence : float) : string :=
  if JS_ge confidence 0.8 then "High"
  else if JS_ge confidence 0.6 then "Medium"
  else "Low".


(** The badge of a pole height (source lines 221-226): its variant and
    the percentage it shows. *)
Definition badgeVariant (height : PoleHeight) : string :=
  if JS.gt (confidence height) 0.7 then "default" else "secondary".

Definition badgePercent (height : PoleHeight) : float :=
  JS.Math_round (confidence height * 100).

(** The nine records [estimatePoleHeight] can return: three base
    estimates, each unadjusted, shrunk (large box) or stretched (small
    box). *)
Definition poleHeightTable : list PoleHeight :=
  [ {| estimatedHeight := 4.1; confidence := 0.9;
       referenceUsed := "Standard urban intersection" |};
    {| estimatedHeight := 4.5; confidence := 0.8;
       referenceUsed := "Standard urban intersection" |};
    {| estimatedHeight := 5.4; confidence := 0.70000000000000007;
       referenceUsed := "Standard urban intersection" |};
    {| estimatedHeight := 4.7; confidence := 0.79999999999999993;
       referenceUsed := "Highway or major road" |};
    {| estimatedHeight := 5.2; confidence := 0.7;
       referenceUsed := "Highway or major road" |};
    {| estimatedHeight := 6.2; confidence := 0.6;
       referenceUsed := "Highway or major road" |};
    {| estimatedHeight := 5.5; confidence := 0.7;
       referenceUsed := "Highway overpass" |};
    {| estimatedHeight := 6.1; confidence := 0.6;
       referenceUsed := "Highway overpass" |};
    {| estimatedHeight := 7.3; confidence := 0.5;
       referenceUsed := "Highway overpass" |} ].

(** A faint green sample alone, and next to a black sample. *)
Definition faintGreen : ImageData :=
  {| data := [ {| R := 0; G := 30; B := 0; A := 255 |} ] |}.

Definition faintGreenOnBlack : ImageData :=
  {| data := [ {| R := 0; G := 0; B := 0; A := 255 |};
               {| R := 0; G := 30; B := 0; A := 255 |} ] |}.

(** A canvas and detector results used to exercise the pipeline: red
    pixels left of x = 100, green pixels up to x = 200, black beyond. *)
Definition sampleCanvas (x y width height : float)
  : completion (option ImageData) :=
  if JS.lt x 100 then Normal (Some (uniform 4 200 50 50))
  else if JS.lt x 200 then Normal (Some (uniform 4 0 255 0))
  else Normal (Some (uniform 4 0 0 0)).

(** The same canvas, except that reading beyond x = 300 throws. *)
Definition sampleCanvasGuarded (x y width height : float)
  : completion (option ImageData) :=
  if JS.lt x 300 then sampleCanvas x y width height
  else Abrupt "IndexSizeError".

Definition sampleResults : list Item.t :=
  [ {| Item.label := "traffic light"; Item.score := 0.6;
       Item.box := {| xmin := 10; ymin := 20; xmax := 40; ymax := 90 |} |};
    {| Item.label := "car"; Item.score := 0.99;
       Item.box := {| xmin := 350; ymin := 300; xmax := 600; ymax := 450 |} |};
    {| Item.label := "Traffic Light"; Item.score := 0.9;
       Item.box := {| xmin := 150; ymin := 30; xmax := 170; ymax := 80 |} |};
    {| Item.label := "stop sign"; Item.score := 0.5;
       Item.box := {| xmin := 250; ymin := 10; xmax := 290; ymax := 50 |} |} ].

Definition sampleDetections : list Detection.t :=
  [ {| Detection.label := "Green"; Detection.confidence := 0.9;
       Detection.bbox := (150, 30, 170, 80)%float |};
    {| Detection.label := "Red"; Detection.confidence := 0.6;
       Detection.bbox := (10, 20, 40, 90)%float |} ].

(** Earlier detections are at least as confident as later ones. *)
Definition byDescendingConfidence (a b : Detection.t) : Prop :=
  PrimFloat.leb (Detection.confidence b) (Detection.confidence a) = true.

(** ** Evaluation on concrete inputs *)

Example round_half_up : JS.Math_round 40.5%float = 41%float.
Proof. vm_compute. reflexivity. Qed.

Example round_neg_half : JS.Math_round (-2.5)%float = (-2)%float.
Proof. vm_compute. reflexivity. Qed.

Example estimate_top_small :
  estimatePoleHeight 480 100 520 140 1000 1000
  = Normal {| estimatedHeight := 6.1; confidence := 0.6;
              referenceUsed := "Highway overpass" |}.
Proof. vm_compute. reflexivity. Qed.

Example estimate_zero_height :
  estimatePoleHeight 480 100 520 140 1000 0
  = Normal {| estimatedHeight := 4.1; confidence := 0.9;
              referenceUsed := "Standard urban intersection" |}.
Proof. vm_compute. reflexivity. Qed.


Example classify_pure_green :
  analyzeTrafficLightColor (Some (uniform 4 0 255 0)) = Normal "Green"%string.
Proof. vm_compute. reflexivity. Qed.

Example classify_red_dominant :
  analyzeTrafficLightColor (Some (uniform 3 200 50 50)) = Normal "Red"%string.
Proof. vm_compute. reflexivity. Qed.

Example classify_amber_pixel :
  analyzeTrafficLightColor (Some (uniform 1 150 120 50)) = Normal "Red"%string.
Proof. vm_compute. reflexivity. Qed.

Example classify_bright_yellow :
  analyzeTrafficLightColor (Some (uniform 2 150 140 50)) = Normal "Yellow"%string.
Proof. vm_compute. reflexivity. Qed.

Example classify_faint_green_pixel :
  analyzeTrafficLightColor (Some (uniform 1 0 30 0)) = Normal "Green"%string.
Proof. vm_compute. reflexivity. Qed.

Example classify_black :
  analyzeTrafficLightColor (Some (uniform 5 0 0 0)) = Normal "Unknown"%string.
Proof. vm_compute. reflexivity. Qed.

Example classify_no_pixel :
  analyzeTrafficLightColor (Some {| data := [] |}) = Normal "Unknown"%string.
Proof. vm_compute. reflexivity. Qed.

(** ** Facts about binary64 comparison and division by zero *)

Section FloatOrder.

(** Swapping the arguments of the specification-level comparison flips
    its result. *)
Lemma SFcompare_swap (a b : spec_float) :
  SFcompare b a = option_map CompOpp (SFcompare a b).
Proof.
  destruct a as [sa|sa| |sa ma ea], b as [sb|sb| |sb mb eb]; simpl;
    try reflexivity;
    try (destruct sa; reflexivity);
    try (destruct sb; reflexivity);
    try (destruct sa, sb; reflexivity).
  destruct sa, sb; simpl; try reflexivity;
    rewrite (Z.compare_antisym ea eb);
    destruct (ea ?= eb)%Z; simpl; try reflexivity;
    change (Pos.compare_cont Eq mb ma) with (Pos.compare mb ma);
    change (Pos.compare_cont Eq ma mb) with (Pos.compare ma mb);
    rewrite (Pos.compare_antisym ma mb);
    destruct (ma ?= mb)%positive; reflexivity.
Qed.

(** [x <= y] excludes [y < x]. *)
Lemma leb_not_gt (x y : float) :
  PrimFloat.leb x y = true -> JS.gt x y = false.
Proof.
  unfold JS.gt. rewrite FloatAxioms.leb_spec, FloatAxioms.ltb_spec.
  unfold SFleb, SFltb. rewrite (SFcompare_swap (Prim2SF x) (Prim2SF y)).
  destruct (SFcompare (Prim2SF x) (Prim2SF y)) as [[ | | ]|]; simpl;
    intros H; try reflexivity; discriminate H.
Qed.

(** IEEE division by [+0]: a NaN for a zero or NaN dividend, otherwise an
    infinity with the sign of the dividend. *)
Lemma div_zero_spec (x : float) :
  Prim2SF (x / 0)%float =
  match Prim2SF x with
  | S754_zero _ | S754_nan => S754_nan
  | S754_infinity s | S754_finite s _ _ => S754_infinity s
  end.
Proof.
  rewrite FloatAxioms.div_spec.
  change (Prim2SF 0%float) with (S754_zero false).
  destruct (Prim2SF x) as [s|s| |s m e]; simpl; try reflexivity;
    destruct s; reflexivity.
Qed.

(** Against a positive finite threshold [c], [x / 0 > c] holds exactly
    when [x > 0], and [x / 0 < c] exactly when [x < 0]. *)
Lemma div_zero_gt (x c : float) (m : positive) (e : Z) :
  Prim2SF c = S754_finite false m e ->
  JS.gt (x / 0)%float c = JS.gt x 0%float.
Proof.
  intros Hc. unfold JS.gt. rewrite !FloatAxioms.ltb_spec, div_zero_spec, Hc.
  change (Prim2SF 0%float) with (S754_zero false).
  destruct (Prim2SF x) as [s|s| |s mx ex]; simpl; try reflexivity;
    destruct s; reflexivity.
Qed.

Lemma div_zero_lt (x c : float) (m : positive) (e : Z) :
  Prim2SF c = S754_finite false m e ->
  JS.lt (x / 0)%float c = JS.lt x 0%float.
Proof.
  intros Hc. unfold JS.lt. rewrite !FloatAxioms.ltb_spec, div_zero_spec, Hc.
  change (Prim2SF 0%float) with (S754_zero false).
  destruct (Prim2SF x) as [s|s| |s mx ex]; simpl; try reflexivity;
    destruct s; reflexivity.
Qed.

(** An absolute value is never below zero. *)
Lemma abs_not_lt_zero (x : float) :
  JS.lt (JS.Math_abs x) 0%float = false.
Proof.
  unfold JS.lt, JS.Math_abs. rewrite FloatAxioms.ltb_spec, FloatAxioms.abs_spec.
  change (Prim2SF 0%float) with (S754_zero false).
  destruct (Prim2SF x) as [s|s| |s mx ex]; reflexivity.
Qed.

End FloatOrder.

(** ** Exact division of integers

    When [q * n] is below [2^53], the binary64 quotient of the numbers
    [q * n] and [n] is the number [q]: the operands are represented
    exactly and the correctly rounded quotient of an exact result is that
    result.  The proof follows the specification of the division on
    normalised mantissas. *)

Section IntegerDivision.

Local Open Scope Z_scope.

Lemma digits_iter (j p : positive) :
  digits2_pos (Pos.iter xO p j) = (digits2_pos p + j)%positive.
Proof.
  induction j as [|j IH] using Pos.peano_ind.
  - simpl. lia.
  - rewrite Pos.iter_succ. simpl. rewrite IH. lia.
Qed.

Lemma Zpos_iter (j p : positive) :
  Zpos (Pos.iter xO p j) = Zpos p * 2 ^ Zpos j.
Proof.
  induction j as [|j IH] using Pos.peano_ind.
  - simpl. lia.
  - rewrite Pos.iter_succ, Pos2Z.inj_succ, Z.pow_succ_r by lia.
    rewrite Pos2Z.inj_xO, IH. lia.
Qed.

Lemma digits_bounds (p : positive) :
  2 ^ (Zpos (digits2_pos p) - 1) <= Zpos p < 2 ^ Zpos (digits2_pos p).
Proof.
  induction p as [p IH|p IH|]; cbn [digits2_pos].
  - rewrite Pos2Z.inj_succ, Z.pow_succ_r by lia.
    replace (Z.succ (Zpos (digits2_pos p)) - 1)
      with (Z.succ (Zpos (digits2_pos p) - 1)) by lia.
    rewrite Z.pow_succ_r by lia. lia.
  - rewrite Pos2Z.inj_succ, Z.pow_succ_r by lia.
    replace (Z.succ (Zpos (digits2_pos p)) - 1)
      with (Z.succ (Zpos (digits2_pos p) - 1)) by lia.
    rewrite Z.pow_succ_r by lia. lia.
  - simpl. lia.
Qed.

Lemma fexp_eq (x : Z) : -1021 <= x -> fexp prec emax x = x - 53.
Proof. unfold fexp, SpecFloat.emin, prec, emax. lia. Qed.

Lemma round_aux_53 (m : positive) (e : Z) :
  Zpos (digits2_pos m) = 53 -> -1074 <= e <= 971 ->
  binary_round_aux prec emax false (Zpos m) e loc_Exact = S754_finite false m e.
Proof.
  intros Hd He.
  unfold binary_round_aux, shr_fexp. cbn [Zdigits2 shr_record_of_loc].
  rewrite Hd, fexp_eq by lia.
  replace (53 + e - 53 - e) with 0 by lia.
  cbn [shr shr_m loc_of_shr_record round_nearest_even Zdigits2 shr_record_of_loc].
  rewrite Hd, fexp_eq by lia.
  replace (53 + e - 53 - e) with 0 by lia.
  cbn [shr shr_m].
  replace (e <=? emax - prec) with true; [reflexivity|].
  symmetry. apply Z.leb_le. unfold emax, prec. lia.
Qed.

Lemma round_aux_54 (m : positive) (e : Z) :
  Zpos (digits2_pos m) = 53 -> -1075 <= e <= 970 ->
  binary_round_aux prec emax false (Zpos (xO m)) e loc_Exact =
  S754_finite false m (e + 1).
Proof.
  intros Hd He.
  unfold binary_round_aux, shr_fexp. cbn [Zdigits2 shr_record_of_loc digits2_pos].
  rewrite Pos2Z.inj_succ, Hd, fexp_eq by lia.
  replace (Z.succ 53 + e - 53 - e) with 1 by lia.
  cbn [shr iter_pos shr_1 orb shr_m loc_of_shr_record round_nearest_even Zdigits2 shr_record_of_loc].
  rewrite Hd, fexp_eq by lia.
  replace (53 + (e + 1) - 53 - (e + 1)) with 0 by lia.
  cbn [shr shr_m].
  replace (e + 1 <=? emax - prec) with true; [reflexivity|].
  symmetry. apply Z.leb_le. unfold emax, prec. lia.
Qed.

Lemma normalize_pos (p : positive) :
  Zpos p < 2 ^ 53 ->
  exists m,
    binary_normalize prec emax (Zpos p) 0 false =
      S754_finite false m (Zpos (digits2_pos p) - 53)
    /\ Zpos (digits2_pos m) = 53
    /\ Zpos m = Zpos p * 2 ^ (53 - Zpos (digits2_pos p)).
Proof.
  intros Hp. pose proof (digits_bounds p) as [Dlo Dhi].
  set (d := Zpos (digits2_pos p)) in *.
  assert (Hd : 1 <= d <= 53).
  { split; [unfold d; lia|].
    assert (d - 1 < 53) by (apply (Z.pow_lt_mono_r_iff 2); lia). lia. }
  unfold binary_normalize, binary_round, shl_align. fold d.
  rewrite fexp_eq by lia.
  replace (d + 0 - 53 - 0) with (d - 53) by lia.
  replace (d + 0 - 53) with (d - 53) by lia.
  destruct (d - 53) as [|j|j] eqn:E; [| lia |].
  - exists p. rewrite round_aux_53 by (fold d; lia).
    split; [reflexivity|]. split; [fold d; lia|].
    replace (53 - d) with 0 by lia. lia.
  - exists (Pos.iter xO p j).
    assert (Hdig : Zpos (digits2_pos (Pos.iter xO p j)) = 53).
    { rewrite digits_iter, Pos2Z.inj_add. fold d. lia. }
    rewrite round_aux_53 by lia.
    split; [reflexivity|]. split; [exact Hdig|].
    rewrite Zpos_iter. f_equal. f_equal. lia.
Qed.

Lemma div_core_exact (m1 m2 q : positive) (e1 e2 : Z) :
  Zpos (digits2_pos m1) = 53 -> Zpos (digits2_pos m2) = 53 ->
  0 <= e1 - e2 <= 53 ->
  Zpos m1 * 2 ^ (e1 - e2) = Zpos q * Zpos m2 ->
  SFdiv_core_binary prec emax (Zpos m1) e1 (Zpos m2) e2 =
  (Zpos q * 2 ^ (53 - (e1 - e2)), e1 - e2 - 53, loc_Exact).
Proof.
  intros H1 H2 Hk Hq.
  unfold SFdiv_core_binary. cbn [Zdigits2]. rewrite H1, H2.
  rewrite fexp_eq by lia.
  replace (Z.min (53 + e1 - (53 + e2) - 53) (e1 - e2)) with (e1 - e2 - 53) by lia.
  replace (e1 - e2 - (e1 - e2 - 53)) with 53 by lia.
  cbv iota beta.
  rewrite Z.shiftl_mul_pow2 by lia.
  assert (Hm : Zpos m1 * 2 ^ 53 = Zpos q * 2 ^ (53 - (e1 - e2)) * Zpos m2).
  { replace (2 ^ 53) with (2 ^ (e1 - e2) * 2 ^ (53 - (e1 - e2))).
    - rewrite Z.mul_assoc, Hq. ring.
    - rewrite <- Z.pow_add_r by lia. f_equal. lia. }
  rewrite Hm.
  pose proof (Z.div_mul (Zpos q * 2 ^ (53 - (e1 - e2))) (Zpos m2)) as Hdiv.
  pose proof (Z.mod_mul (Zpos q * 2 ^ (53 - (e1 - e2))) (Zpos m2)) as Hmod.
  unfold Z.div, Z.modulo in Hdiv, Hmod.
  destruct (Z.div_eucl (Zpos q * 2 ^ (53 - (e1 - e2)) * Zpos m2) (Zpos m2))
    as [qq rr].
  cbn [fst snd] in Hdiv, Hmod.
  rewrite Hdiv, Hmod by lia.
  unfold new_location, new_location_even, new_location_odd.
  destruct (Z.even (Zpos m2)); reflexivity.
Qed.

Local Open Scope float_scope.

Lemma of_Z_pos_spec (p : positive) :
  (Zpos p < 2 ^ 53)%Z ->
  Prim2SF (JS.of_Z (Zpos p)) = binary_normalize prec emax (Zpos p) 0 false.
Proof.
  intros Hp. unfold JS.of_Z.
  rewrite FloatAxioms.of_uint63_spec, Uint63.of_Z_spec, Z.mod_small; [reflexivity|].
  assert (wB = 2 ^ 63)%Z by reflexivity. lia.
Qed.

Lemma of_pos_div_exact (q n : positive) :
  (Zpos q * Zpos n < 2 ^ 53)%Z ->
  JS.of_Z (Zpos (q * n)) / JS.of_Z (Zpos n) = JS.of_Z (Zpos q).
Proof.
  intros Hb.
  assert (Hq : (Zpos q < 2 ^ 53)%Z) by nia.
  assert (Hn : (Zpos n < 2 ^ 53)%Z) by nia.
  assert (Ha : (Zpos (q * n) < 2 ^ 53)%Z) by (rewrite Pos2Z.inj_mul; exact Hb).
  apply Prim2SF_inj.
  rewrite FloatAxioms.div_spec, !of_Z_pos_spec by assumption.
  destruct (normalize_pos _ Hq) as (mq & -> & Dq & Vq).
  destruct (normalize_pos _ Hn) as (mn & -> & Dn & Vn).
  destruct (normalize_pos _ Ha) as (ma & -> & Da & Va).
  pose proof (digits_bounds q) as [Bq1 Bq2].
  pose proof (digits_bounds n) as [Bn1 Bn2].
  pose proof (digits_bounds (q * n)) as [Ba1 Ba2].
  set (dq := Zpos (digits2_pos q)) in *.
  set (dn := Zpos (digits2_pos n)) in *.
  set (da := Zpos (digits2_pos (q * n))) in *.
  assert (Hdq : (1 <= dq)%Z) by (unfold dq; lia).
  assert (Hdn : (1 <= dn)%Z) by (unfold dn; lia).
  assert (Hda : (da <= 53)%Z).
  { assert (da - 1 < 53)%Z by (apply (Z.pow_lt_mono_r_iff 2); lia). lia. }
  rewrite Pos2Z.inj_mul in Ba1, Ba2, Va.
  assert (Hlo : (2 ^ (dq + dn - 2) <= Zpos q * Zpos n)%Z).
  { replace (dq + dn - 2)%Z with ((dq - 1) + (dn - 1))%Z by lia.
    rewrite Z.pow_add_r by lia.
    apply Z.mul_le_mono_nonneg; try assumption; apply Z.pow_nonneg; lia. }
  assert (Hhi : (Zpos q * Zpos n < 2 ^ (dq + dn))%Z).
  { rewrite Z.pow_add_r by lia.
    apply Z.mul_lt_mono_nonneg; try assumption; lia. }
  assert (Hk1 : (dq + dn - 2 < da)%Z) by (apply (Z.pow_lt_mono_r_iff 2); lia).
  assert (Hk2 : (da - 1 < dq + dn)%Z) by (apply (Z.pow_lt_mono_r_iff 2); lia).
  unfold SF64div, SFdiv.
  rewrite (div_core_exact ma mn q); try assumption; try lia.
  2:{ replace (da - 53 - (dn - 53))%Z with (da - dn)%Z by lia.
      rewrite Va, Vn.
      replace (2 ^ (53 - dn))%Z with (2 ^ (53 - da) * 2 ^ (da - dn))%Z.
      - ring.
      - rewrite <- Z.pow_add_r by lia. f_equal. lia. }
  cbn [xorb].
  replace (da - 53 - (dn - 53))%Z with (da - dn)%Z by lia.
  assert (Hcase : (da - dn = dq \/ da - dn = dq - 1)%Z) by lia.
  destruct Hcase as [Hc | Hc]; rewrite Hc.
  - rewrite <- Vq. apply round_aux_53; [exact Dq | lia].
  - replace (Zpos q * 2 ^ (53 - (dq - 1)))%Z with (Zpos (xO mq)).
    + rewrite round_aux_54 by (try assumption; lia).
      f_equal. lia.
    + rewrite Pos2Z.inj_xO, Vq.
      replace (53 - (dq - 1))%Z with (Z.succ (53 - dq)) by lia.
      rewrite Z.pow_succ_r by lia. ring.
Qed.

Lemma of_Z_div_exact (q n : Z) :
  (0 < q)%Z -> (0 < n)%Z -> (q * n < 2 ^ 53)%Z ->
  JS.of_Z (q * n) / JS.of_Z n = JS.of_Z q.
Proof.
  intros Hq Hn Hb.
  destruct q as [|q|q]; try lia. destruct n as [|n|n]; try lia.
  exact (of_pos_div_exact q n Hb).
Qed.

End IntegerDivision.

(** ** Properties of [estimatePoleHeight] *)

Section Estimate.

Local Open Scope float_scope.
Local Open Scope string_scope.

(** The result record in terms of the two stages of the computation. *)
Lemma estimatePoleHeight_stages (x1 y1 x2 y2 imageWidth imageHeight : float) :
  let positionRatio := (y1 + y2) / 2 / imageHeight in
  let sizeRatio := JS.Math_abs (y2 - y1) / imageHeight in
  let base := positionBase positionRatio in
  let adjusted := sizeAdjust sizeRatio (fst (fst base)) (snd (fst base)) in
  estimatePoleHeight x1 y1 x2 y2 imageWidth imageHeight =
  Normal {| estimatedHeight := JS.Math_round (fst adjusted * 10) / 10;
            confidence := snd adjusted;
            referenceUsed := snd base |}.
Proof.
  intros positionRatio sizeRatio base adjusted.
  unfold estimatePoleHeight.
  fold positionRatio sizeRatio. fold base.
  destruct base as [[h0 c0] r0] eqn:Hbase. simpl in adjusted.
  fold adjusted. destruct adjusted as [h1 c1]. reflexivity.
Qed.

Lemma SFleb_below_threshold (x : spec_float) (m1 m2 : positive) (e1 e2 : Z) :
  (e1 < e2)%Z ->
  SFleb x (S754_finite false m1 e1) = true ->
  SFltb (S754_finite false m2 e2) x = false.
Proof.
  intros He. unfold SFleb, SFltb.
  destruct x as [s|s| |s m e]; cbn [SFcompare];
    try discriminate; try reflexivity;
    try (destruct s; (discriminate || reflexivity)).
  destruct s; try reflexivity.
  destruct (Z.compare_spec e e1), (Z.compare_spec e2 e);
    try discriminate; try reflexivity; lia.
Qed.

Lemma Prim2SF_07 : Prim2SF 0.7 = S754_finite false 6305039478318694 (-53).
Proof. vm_compute. reflexivity. Qed.

Lemma Prim2SF_04 : Prim2SF 0.4 = S754_finite false 7205759403792794 (-54).
Proof. vm_compute. reflexivity. Qed.

Lemma positionBase_upper (r : float) :
  PrimFloat.leb r 0.4 = true ->
  positionBase r = (6.1, 0.6, "Highway overpass").
Proof.
  unfold positionBase. intros Hle.
  assert (H7 : JS.gt r 0.7 = false).
  { unfold JS.gt. rewrite FloatAxioms.ltb_spec, Prim2SF_07.
    rewrite FloatAxioms.leb_spec, Prim2SF_04 in Hle.
    refine (SFleb_below_threshold _ _ _ (-54)%Z (-53)%Z _ Hle). lia. }
  rewrite H7, (leb_not_gt _ _ Hle). reflexivity.
Qed.

Lemma positionBase_middle (r : float) :
  JS.gt r 0.4 = true -> PrimFloat.leb r 0.7 = true ->
  positionBase r = (5.2, 0.7, "Highway or major road").
Proof.
  unfold positionBase. intros Hgt Hle.
  rewrite (leb_not_gt _ _ Hle), Hgt. reflexivity.
Qed.

Lemma positionBase_low (r : float) :
  JS.gt r 0.7 = true ->
  positionBase r = (4.5, 0.8, "Standard urban intersection").
Proof. unfold positionBase. intros ->. reflexivity. Qed.

(** Without a size adjustment the base height survives the final
    rounding to one decimal. *)
Lemma sizeAdjust_none (sizeRatio h c : float) :
  JS.gt sizeRatio 0.1 = false -> JS.lt sizeRatio 0.02 = false ->
  sizeAdjust sizeRatio h c = (h, c).
Proof. unfold sizeAdjust. intros -> ->. reflexivity. Qed.

(** C1, as the claim states it, fails: with [imageHeight = 0] the call
    for the box (480,100,520,140) completes normally. *)
Lemma estimate_zero_height_not_thrown :
  ~ exists thrown,
      estimatePoleHeight 480 100 520 140 1000 0 = Abrupt thrown.
Proof.
  intros [thrown H]. rewrite estimate_zero_height in H. discriminate H.
Qed.

(** C1 (amended): for every bounding box, [estimatePoleHeight] with
    [imageHeight = 0] throws nothing and returns a [PoleHeight].  Both
    ratios are divisions by zero, hence infinite or NaN: the result is
    the "Standard urban intersection" estimate when the vertical centre
    of the box is positive and the "Highway overpass" estimate otherwise,
    with the large-box adjustment applied exactly when the box has a
    non-zero height. *)
Theorem estimate_zero_imageHeight (x1 y1 x2 y2 imageWidth : float) :
  estimatePoleHeight x1 y1 x2 y2 imageWidth 0 =
  Normal
    (match JS.gt ((y1 + y2) / 2) 0, JS.gt (JS.Math_abs (y2 - y1)) 0 with
     | true, true =>
         {| estimatedHeight := 4.1; confidence := 0.9;
            referenceUsed := "Standard urban intersection" |}
     | true, false =>
         {| estimatedHeight := 4.5; confidence := 0.8;
            referenceUsed := "Standard urban intersection" |}
     | false, true =>
         {| estimatedHeight := 5.5; confidence := 0.7;
            referenceUsed := "Highway overpass" |}
     | false, false =>
         {| estimatedHeight := 6.1; confidence := 0.6;
            referenceUsed := "Highway overpass" |}
     end).
Proof.
  rewrite estimatePoleHeight_stages. cbv zeta.
  unfold positionBase, sizeAdjust.
  rewrite (div_zero_gt _ 0.7 _ _ Prim2SF_07).
  rewrite (div_zero_gt _ 0.4 _ _ Prim2SF_04).
  erewrite (div_zero_gt _ 0.1) by (vm_compute; reflexivity).
  erewrite (div_zero_lt _ 0.02) by (vm_compute; reflexivity).
  rewrite abs_not_lt_zero.
  destruct (JS.gt ((y1 + y2) / 2) 0), (JS.gt (JS.Math_abs (y2 - y1)) 0);
    vm_compute; reflexivity.
Qed.

(** C6: for every box and [imageHeight > 0], with
    [positionRatio = ((y1 + y2) / 2) / imageHeight] the base estimate is
    4.5 m, confidence 0.8, "Standard urban intersection" (the spec's
    NearIntersection) when [positionRatio > 0.7]; 5.2 m, 0.7, "Highway or
    major road" (MajorRoad) when [0.4 < positionRatio <= 0.7]; 6.1 m, 0.6,
    "Highway overpass" (Overpass) when [positionRatio <= 0.4].  The
    returned record carries that reference and the base height and
    confidence passed through the size adjustment and the rounding; when
    the size ratio calls for no adjustment the base height and
    confidence are returned as they are.  The box (480,100,520,140) in a
    1000x1000 image has position ratio 0.12 and size ratio 0.04 and
    yields 6.1, 0.6, "Highway overpass". *)
Theorem estimate_base_by_position
  (x1 y1 x2 y2 imageWidth imageHeight : float)
  (Hpos : JS.gt imageHeight 0 = true) :
  let positionRatio := (y1 + y2) / 2 / imageHeight in
  let sizeRatio := JS.Math_abs (y2 - y1) / imageHeight in
  let result base :=
    let adjusted := sizeAdjust sizeRatio (fst (fst base)) (snd (fst base)) in
    Normal {| estimatedHeight := JS.Math_round (fst adjusted * 10) / 10;
              confidence := snd adjusted;
              referenceUsed := snd base |} in
  let unadjusted :=
    JS.gt sizeRatio 0.1 = false /\ JS.lt sizeRatio 0.02 = false in
  let call := estimatePoleHeight x1 y1 x2 y2 imageWidth imageHeight in
  (JS.gt positionRatio 0.7 = true ->
     call = result (4.5, 0.8, "Standard urban intersection")
     /\ (unadjusted ->
         call = Normal {| estimatedHeight := 4.5; confidence := 0.8;
                          referenceUsed := "Standard urban intersection" |}))
  /\ (JS.gt positionRatio 0.4 = true ->
      PrimFloat.leb positionRatio 0.7 = true ->
      call = result (5.2, 0.7, "Highway or major road")
      /\ (unadjusted ->
          call = Normal {| estimatedHeight := 5.2; confidence := 0.7;
                           referenceUsed := "Highway or major road" |}))
  /\ (PrimFloat.leb positionRatio 0.4 = true ->
      call = result (6.1, 0.6, "Highway overpass")
      /\ (unadjusted ->
          call = Normal {| estimatedHeight := 6.1; confidence := 0.6;
                           referenceUsed := "Highway overpass" |}))
  /\ ((100 + 140) / 2 / 1000 = 0.12
      /\ JS.Math_abs (140 - 100) / 1000 = 0.04
      /\ estimatePoleHeight 480 100 520 140 1000 1000 =
         Normal {| estimatedHeight := 6.1; confidence := 0.6;
                   referenceUsed := "Highway overpass" |}).
Proof.
  intros positionRatio sizeRatio result unadjusted call.
  assert (Hcall : call = result (positionBase positionRatio))
    by apply estimatePoleHeight_stages.
  assert (Hplain : forall h c ref, unadjusted ->
            result (h, c, ref) =
            Normal {| estimatedHeight := JS.Math_round (h * 10) / 10;
                      confidence := c; referenceUsed := ref |}).
  { intros h c ref [Hgt Hlt]. unfold result. cbn [fst snd].
    rewrite (sizeAdjust_none _ _ _ Hgt Hlt). reflexivity. }
  split; [|split; [|split]].
  - intros H. rewrite Hcall, (positionBase_low _ H).
    split; [reflexivity|]. intros Hu. rewrite (Hplain _ _ _ Hu).
    vm_compute. reflexivity.
  - intros H H'. rewrite Hcall, (positionBase_middle _ H H').
    split; [reflexivity|]. intros Hu. rewrite (Hplain _ _ _ Hu).
    vm_compute. reflexivity.
  - intros H. rewrite Hcall, (positionBase_upper _ H).
    split; [reflexivity|]. intros Hu. rewrite (Hplain _ _ _ Hu).
    vm_compute. reflexivity.
  - split; [vm_compute; reflexivity|].
    split; [vm_compute; reflexivity|]. exact estimate_top_small.
Qed.

Lemma estimate_base_by_position_witness :
  JS.gt 1000 0 = true
  /\ PrimFloat.leb ((100 + 140) / 2 / 1000) 0.4 = true
  /\ estimatePoleHeight 480 100 520 140 1000 1000 =
     Normal {| estimatedHeight := 6.1; confidence := 0.6;
               referenceUsed := "Highway overpass" |}.
Proof.
  split; [reflexivity|]. split; [vm_compute; reflexivity|].
  pose proof (estimate_base_by_position 480 100 520 140 1000 1000 eq_refl)
    as H.
  cbv zeta in H. destruct H as (_ & _ & H & _).
  apply H; [vm_compute; reflexivity|].
  split; vm_compute; reflexivity.
Defined.

(** C7: for every box and every [imageHeight > 0] the confidence returned
    by [estimatePoleHeight] lies in [0.5, 0.9], whichever branch of the
    size adjustment is taken. *)
Theorem estimate_confidence_range
  (x1 y1 x2 y2 imageWidth imageHeight : float)
  (Hpos : JS.gt imageHeight 0 = true) :
  exists r,
    estimatePoleHeight x1 y1 x2 y2 imageWidth imageHeight = Normal r
    /\ PrimFloat.leb 0.5 (confidence r) = true
    /\ PrimFloat.leb (confidence r) 0.9 = true.
Proof.
  rewrite estimatePoleHeight_stages. cbv zeta.
  eexists. split; [reflexivity|]. cbn [confidence].
  unfold positionBase, sizeAdjust.
  destruct (JS.gt ((y1 + y2) / 2 / imageHeight) 0.7),
           (JS.gt ((y1 + y2) / 2 / imageHeight) 0.4),
           (JS.gt (JS.Math_abs (y2 - y1) / imageHeight) 0.1),
           (JS.lt (JS.Math_abs (y2 - y1) / imageHeight) 0.02);
    vm_compute; split; reflexivity.
Qed.

Lemma estimate_confidence_range_witness :
  JS.gt 600 0 = true
  /\ exists r,
       estimatePoleHeight 10 450 40 470 800 600 = Normal r
       /\ PrimFloat.leb 0.5 (confidence r) = true
       /\ PrimFloat.leb (confidence r) 0.9 = true.
Proof.
  split; [reflexivity|].
  apply (estimate_confidence_range 10 450 40 470 800 600). reflexivity.
Defined.

(** C9: the result of [estimatePoleHeight] does not depend on the
    horizontal coordinates of the box: two boxes with the same [y1] and
    [y2] in the same image get the same height, confidence and
    reference, whatever their [x1] and [x2]. *)
Theorem estimate_ignores_horizontal
  (x1 x2 x1' x2' y1 y2 imageWidth imageHeight : float) :
  estimatePoleHeight x1 y1 x2 y2 imageWidth imageHeight =
  estimatePoleHeight x1' y1 x2' y2 imageWidth imageHeight.
Proof. unfold estimatePoleHeight. reflexivity. Qed.

End Estimate.

(** ** Properties of [analyzeTrafficLightColor] *)

Section Classify.

Local Open Scope string_scope.

(** The result in terms of the three tiers and the fallback. *)
Lemma analyze_tiers (img : ImageData) :
  analyzeTrafficLightColor (Some img) =
  match brightTier (scan (data img)) with
  | Some label => Normal label
  | None =>
      match dimTier (scan (data img)) with
      | Some label => Normal label
      | None =>
          match veryDimTier (scan (data img)) with
          | Some label => Normal label
          | None => Normal (if overallGreen (data img) then "Green"
                            else "Unknown")
          end
      end
  end.
Proof.
  unfold analyzeTrafficLightColor.
  destruct (brightTier _); [reflexivity|].
  destruct (dimTier _); [reflexivity|].
  destruct (veryDimTier _); [reflexivity|].
  destruct (overallGreen _); reflexivity.
Qed.

(** A tier is passed over when its bucket is empty or when its rule chain
    matches nothing. *)
Lemma brightTier_skipped (s : Sums) :
  brightPixels s = 0%Z \/ brightRule s = None -> brightTier s = None.
Proof.
  unfold brightTier. intros [-> | H]; [reflexivity|].
  rewrite H. destruct (0 <? brightPixels s)%Z; reflexivity.
Qed.

Lemma dimTier_skipped (s : Sums) :
  dimPixels s = 0%Z \/ dimRule s = None -> dimTier s = None.
Proof.
  unfold dimTier. intros [-> | H]; [reflexivity|].
  rewrite H. destruct (0 <? dimPixels s)%Z; reflexivity.
Qed.

Lemma veryDimTier_skipped (s : Sums) :
  veryDimPixels s = 0%Z \/ veryDimRule s = None -> veryDimTier s = None.
Proof.
  unfold veryDimTier. intros [-> | H]; [reflexivity|].
  rewrite H. destruct (0 <? veryDimPixels s)%Z; reflexivity.
Qed.

Lemma brightTier_taken (s : Sums) :
  (0 < brightPixels s)%Z -> brightTier s = brightRule s.
Proof. unfold brightTier. intros H. apply Z.ltb_lt in H. now rewrite H. Qed.

Lemma dimTier_taken (s : Sums) :
  (0 < dimPixels s)%Z -> dimTier s = dimRule s.
Proof. unfold dimTier. intros H. apply Z.ltb_lt in H. now rewrite H. Qed.

Lemma veryDimTier_taken (s : Sums) :
  (0 < veryDimPixels s)%Z -> veryDimTier s = veryDimRule s.
Proof. unfold veryDimTier. intros H. apply Z.ltb_lt in H. now rewrite H. Qed.

(** The first loop computes the totals and counts of the three bands. *)
Lemma fold_scan_bands (d : list Pixel) :
  forall s, fold_left scanPixel d s = addSums s (bandSums d).
Proof.
  induction d as [|p d IH]; intros s.
  - destruct s. unfold addSums, bandSums; cbn. f_equal; lia.
  - cbn [fold_left]. rewrite IH.
    unfold addSums, bandSums, scanPixel, scanSample, count, total.
    cbn [filter]. unfold inBright, inDim, inVeryDim.
    destruct (JS.gt (brightness (R p) (G p) (B p)) 60),
      (JS.gt (brightness (R p) (G p) (B p)) 25),
      (JS.gt (brightness (R p) (G p) (B p)) 10);
      cbn [negb andb fold_right length redSum greenSum blueSum brightPixels
           dimPixels dimRedSum dimGreenSum dimBlueSum veryDimPixels
           veryDimRedSum veryDimGreenSum veryDimBlueSum];
      f_equal; lia.
Qed.

Lemma scan_bands (d : list Pixel) : scan d = bandSums d.
Proof.
  unfold scan. rewrite fold_scan_bands.
  destruct (bandSums d). reflexivity.
Qed.

(** C8: [analyzeTrafficLightColor] never throws: every call completes
    normally with a label.  For a missing region ([undefined]) and for the
    region without samples, where the three buckets are empty and the
    sample count is zero, that label is "Unknown". *)
Theorem classify_degenerate_unknown :
  (forall imageData,
      exists label, analyzeTrafficLightColor imageData = Normal label)
  /\ analyzeTrafficLightColor None = Normal "Unknown"
  /\ (brightPixels (scan []) = 0 /\ dimPixels (scan []) = 0
      /\ veryDimPixels (scan []) = 0 /\ Z.of_nat (length (@nil Pixel)) = 0)%Z
  /\ analyzeTrafficLightColor (Some {| data := [] |}) = Normal "Unknown".
Proof.
  split; [|split; [reflexivity|split]].
  - intros [img|]; [|eexists; reflexivity].
    rewrite analyze_tiers.
    destruct (brightTier _); [eexists; reflexivity|].
    destruct (dimTier _); [eexists; reflexivity|].
    destruct (veryDimTier _); eexists; reflexivity.
  - repeat split.
  - vm_compute. reflexivity.
Qed.

(** C4: for every region, the accumulators of the first loop are the
    totals and counts of the three brightness bands (above 60; above 25 up
    to 60; above 10 up to 25), and the buckets are tried from the
    brightest to the dimmest.  A non-empty bright bucket whose means match
    a rule fixes the label, whatever the other buckets hold.  A bucket
    that is empty, or non-empty with means matching no rule, is passed
    over: then a non-empty dim bucket that matches fixes the label, and
    after it a non-empty very dim bucket.  The whole-region test is
    reached only when all three buckets have been passed over. *)
Theorem classify_bucket_priority (img : ImageData) :
  let s := scan (data img) in
  let call := analyzeTrafficLightColor (Some img) in
  s = bandSums (data img)
  /\ (forall label,
         (0 < brightPixels s)%Z -> brightRule s = Some label ->
         call = Normal label)
  /\ (forall label,
         brightPixels s = 0%Z \/ brightRule s = None ->
         (0 < dimPixels s)%Z -> dimRule s = Some label ->
         call = Normal label)
  /\ (forall label,
         brightPixels s = 0%Z \/ brightRule s = None ->
         dimPixels s = 0%Z \/ dimRule s = None ->
         (0 < veryDimPixels s)%Z -> veryDimRule s = Some label ->
         call = Normal label)
  /\ (brightPixels s = 0%Z \/ brightRule s = None ->
      dimPixels s = 0%Z \/ dimRule s = None ->
      veryDimPixels s = 0%Z \/ veryDimRule s = None ->
      call = Normal (if overallGreen (data img) then "Green" else "Unknown"))
  /\ (forall img' label,
         brightPixels (scan (data img')) = brightPixels s ->
         redSum (scan (data img')) = redSum s ->
         greenSum (scan (data img')) = greenSum s ->
         blueSum (scan (data img')) = blueSum s ->
         (0 < brightPixels s)%Z -> brightRule s = Some label ->
         analyzeTrafficLightColor (Some img') = Normal label).
Proof.
  intros s call. unfold call. rewrite analyze_tiers. fold s.
  split; [|split; [|split; [|split; [|split]]]].
  - apply scan_bands.
  - intros label Hn Hr. rewrite (brightTier_taken _ Hn), Hr. reflexivity.
  - intros label Hb Hn Hr.
    rewrite (brightTier_skipped _ Hb), (dimTier_taken _ Hn), Hr. reflexivity.
  - intros label Hb Hd Hn Hr.
    rewrite (brightTier_skipped _ Hb), (dimTier_skipped _ Hd),
      (veryDimTier_taken _ Hn), Hr.
    reflexivity.
  - intros Hb Hd Hv.
    rewrite (brightTier_skipped _ Hb), (dimTier_skipped _ Hd),
      (veryDimTier_skipped _ Hv).
    reflexivity.
  - intros img' label Hn Hr Hg Hb Hpos Hrule.
    rewrite analyze_tiers, brightTier_taken by (rewrite Hn; exact Hpos).
    replace (brightRule (scan (data img'))) with (brightRule s);
      [rewrite Hrule; reflexivity|].
    unfold brightRule, avgRed, avgGreen, avgBlue.
    rewrite Hn, Hr, Hg, Hb. reflexivity.
Qed.

(** A bright grey sample matches no bright rule, so the dim green sample
    next to it decides. *)
Lemma classify_bucket_priority_witness :
  (0 < brightPixels (scan (data greyAndDimGreen)))%Z
  /\ brightRule (scan (data greyAndDimGreen)) = None
  /\ (0 < dimPixels (scan (data greyAndDimGreen)))%Z
  /\ dimRule (scan (data greyAndDimGreen)) = Some "Green"
  /\ analyzeTrafficLightColor (Some greyAndDimGreen) = Normal "Green".
Proof.
  split; [reflexivity|]. split; [vm_compute; reflexivity|].
  split; [reflexivity|]. split; [vm_compute; reflexivity|].
  destruct (classify_bucket_priority greyAndDimGreen) as (_ & _ & H & _).
  apply H.
  - right. vm_compute. reflexivity.
  - reflexivity.
  - vm_compute. reflexivity.
Defined.

(** C5: inside the bucket that decides, the rules are tried in the order
    Green, Red, Yellow and the first that matches gives the label.  In
    particular means that satisfy both the green and the yellow rule of
    the tier give "Green". *)
Theorem classify_rule_order (img : ImageData) :
  let s := scan (data img) in
  let call := analyzeTrafficLightColor (Some img) in
  let ordered (decides : Prop) (green red yellow : bool) :=
    decides ->
    (green = true -> call = Normal "Green")
    /\ (green = false -> red = true -> call = Normal "Red")
    /\ (green = false -> red = false -> yellow = true ->
        call = Normal "Yellow")
    /\ (green = true -> yellow = true -> call = Normal "Green") in
  ordered (0 < brightPixels s)%Z
    (brightGreen (avgRed s) (avgGreen s) (avgBlue s))
    (brightRed (avgRed s) (avgGreen s) (avgBlue s))
    (brightYellow (avgRed s) (avgGreen s) (avgBlue s))
  /\ ordered
       ((brightPixels s = 0%Z \/ brightRule s = None) /\ (0 < dimPixels s)%Z)
       (dimGreen (dimAvgRed s) (dimAvgGreen s) (dimAvgBlue s))
       (dimRed (dimAvgRed s) (dimAvgGreen s) (dimAvgBlue s))
       (dimYellow (dimAvgRed s) (dimAvgGreen s) (dimAvgBlue s))
  /\ ordered
       ((brightPixels s = 0%Z \/ brightRule s = None)
        /\ (dimPixels s = 0%Z \/ dimRule s = None)
        /\ (0 < veryDimPixels s)%Z)
       (veryDimGreen (veryDimAvgRed s) (veryDimAvgGreen s) (veryDimAvgBlue s))
       (veryDimRed (veryDimAvgRed s) (veryDimAvgGreen s) (veryDimAvgBlue s))
       (veryDimYellow (veryDimAvgRed s) (veryDimAvgGreen s)
          (veryDimAvgBlue s)).
Proof.
  intros s call ordered. unfold ordered, call.
  rewrite analyze_tiers. fold s.
  split; [|split].
  - intros Hn. rewrite (brightTier_taken _ Hn). unfold brightRule, firstRule.
    repeat split; intros; repeat match goal with H : _ = _ |- _ =>
      rewrite H; clear H end; reflexivity.
  - intros [Hb Hn].
    rewrite (brightTier_skipped _ Hb), (dimTier_taken _ Hn).
    unfold dimRule, firstRule.
    repeat split; intros; repeat match goal with H : _ = _ |- _ =>
      rewrite H; clear H end; reflexivity.
  - intros (Hb & Hd & Hn).
    rewrite (brightTier_skipped _ Hb), (dimTier_skipped _ Hd),
      (veryDimTier_taken _ Hn).
    unfold veryDimRule, firstRule.
    repeat split; intros; repeat match goal with H : _ = _ |- _ =>
      rewrite H; clear H end; reflexivity.
Qed.

(** Bright means (135, 150, 50) satisfy the green and the yellow rule. *)
Lemma classify_rule_order_witness :
  (0 < brightPixels (scan (data (uniform 2 135 150 50))))%Z
  /\ brightGreen (avgRed (scan (data (uniform 2 135 150 50))))
        (avgGreen (scan (data (uniform 2 135 150 50))))
        (avgBlue (scan (data (uniform 2 135 150 50)))) = true
  /\ brightYellow (avgRed (scan (data (uniform 2 135 150 50))))
        (avgGreen (scan (data (uniform 2 135 150 50))))
        (avgBlue (scan (data (uniform 2 135 150 50)))) = true
  /\ analyzeTrafficLightColor (Some (uniform 2 135 150 50)) = Normal "Green".
Proof.
  split; [reflexivity|]. split; [vm_compute; reflexivity|].
  split; [vm_compute; reflexivity|].
  destruct (classify_rule_order (uniform 2 135 150 50)) as (H & _).
  assert (Hd : (0 < brightPixels (scan (data (uniform 2 135 150 50))))%Z)
    by reflexivity.
  destruct (H Hd) as (_ & _ & _ & H4).
  apply H4; vm_compute; reflexivity.
Defined.

(** *** Order of the samples *)

Lemma fold_left_permutation {S T : Type} (f : S -> T -> S) :
  (forall s a b, f (f s a) b = f (f s b) a) ->
  forall l l', Permutation l l' ->
  forall s, fold_left f l s = fold_left f l' s.
Proof.
  intros Hcomm l l' Hperm.
  induction Hperm as [|x l l' _ IH|x y l|l l' l'' _ IH1 _ IH2];
    intros s; simpl.
  - reflexivity.
  - apply IH.
  - rewrite Hcomm. reflexivity.
  - rewrite IH1. apply IH2.
Qed.

Lemma fold_left_through_map {S T U : Type} (f : S -> U -> S) (g : T -> U) l :
  forall s, fold_left (fun s x => f s (g x)) l s = fold_left f (map g l) s.
Proof. induction l as [|x l IH]; intros s; simpl; [reflexivity|apply IH]. Qed.

Lemma scan_rgb (d : list Pixel) :
  scan d = fold_left scanTriple (map rgb d) noSums.
Proof.
  unfold scan. rewrite <- fold_left_through_map. reflexivity.
Qed.

Lemma overall_rgb (d : list Pixel) :
  overall d = fold_left addTriple (map rgb d) (0, 0, 0)%Z.
Proof.
  unfold overall. rewrite <- fold_left_through_map.
  generalize (0, 0, 0)%Z.
  induction d as [|p d IH]; intros t; simpl; [reflexivity|].
  rewrite <- IH. destruct t as [[r g] b]. reflexivity.
Qed.

Lemma scanTriple_comm (s : Sums) (t u : Z * Z * Z) :
  scanTriple (scanTriple s t) u = scanTriple (scanTriple s u) t.
Proof.
  destruct t as [[r g] b], u as [[r' g'] b'].
  unfold scanTriple, scanSample; cbn [fst snd].
  destruct (JS.gt (brightness r g b) 60), (JS.gt (brightness r g b) 25),
    (JS.gt (brightness r g b) 10), (JS.gt (brightness r' g' b') 60),
    (JS.gt (brightness r' g' b') 25), (JS.gt (brightness r' g' b') 10);
    cbn; try reflexivity; f_equal; lia.
Qed.

Lemma addTriple_comm (s t u : Z * Z * Z) :
  addTriple (addTriple s t) u = addTriple (addTriple s u) t.
Proof.
  destruct s as [[a b] c], t as [[r g] b0], u as [[r' g'] b'].
  unfold addTriple; cbn [fst snd]. f_equal; [f_equal|]; lia.
Qed.

(** C10: [analyzeTrafficLightColor] is invariant under any permutation of
    the samples of the region and ignores their alpha: two regions whose
    samples have the same multiset of (R, G, B) values get the same
    label. *)
Theorem classify_permutation_invariant (img img' : ImageData) :
  Permutation (map rgb (data img)) (map rgb (data img')) ->
  analyzeTrafficLightColor (Some img) = analyzeTrafficLightColor (Some img').
Proof.
  intros Hperm.
  assert (Hscan : scan (data img) = scan (data img')).
  { rewrite !scan_rgb.
    apply (fold_left_permutation scanTriple scanTriple_comm _ _ Hperm). }
  assert (Hall : overall (data img) = overall (data img')).
  { rewrite !overall_rgb.
    apply (fold_left_permutation addTriple addTriple_comm _ _ Hperm). }
  assert (Hlen : length (data img) = length (data img')).
  { apply Permutation_length in Hperm.
    rewrite !length_map in Hperm. exact Hperm. }
  rewrite !analyze_tiers. rewrite Hscan.
  unfold overallGreen. rewrite Hall, Hlen. reflexivity.
Qed.

Lemma classify_permutation_invariant_witness :
  Permutation (map rgb (data redAndGreen)) (map rgb (data greenAndRed))
  /\ analyzeTrafficLightColor (Some redAndGreen) =
     analyzeTrafficLightColor (Some greenAndRed).
Proof.
  assert (Hperm : Permutation (map rgb (data redAndGreen))
                              (map rgb (data greenAndRed)))
    by (simpl; apply perm_swap).
  split; [exact Hperm|].
  apply (classify_permutation_invariant redAndGreen greenAndRed Hperm).
Defined.

(** *** Regions without any sample above brightness 10 *)

Lemma Prim2SF_10 : Prim2SF 10 = S754_finite false 5629499534213120 (-49).
Proof. vm_compute. reflexivity. Qed.

Lemma Prim2SF_25 : Prim2SF 25 = S754_finite false 7036874417766400 (-48).
Proof. vm_compute. reflexivity. Qed.

Lemma Prim2SF_60 : Prim2SF 60 = S754_finite false 8444249301319680 (-47).
Proof. vm_compute. reflexivity. Qed.

Lemma dark_sample_skipped (s : Sums) (p : Pixel) :
  dark p -> scanPixel s p = s.
Proof.
  unfold dark, scanPixel, scanSample. intros Hd.
  set (x := brightness (R p) (G p) (B p)) in *.
  assert (H60 : JS.gt x 60 = false).
  { unfold JS.gt. rewrite FloatAxioms.ltb_spec, Prim2SF_60.
    rewrite FloatAxioms.leb_spec, Prim2SF_10 in Hd.
    refine (SFleb_below_threshold _ _ _ (-49)%Z (-47)%Z _ Hd). lia. }
  assert (H25 : JS.gt x 25 = false).
  { unfold JS.gt. rewrite FloatAxioms.ltb_spec, Prim2SF_25.
    rewrite FloatAxioms.leb_spec, Prim2SF_10 in Hd.
    refine (SFleb_below_threshold _ _ _ (-49)%Z (-48)%Z _ Hd). lia. }
  rewrite H60, H25, (leb_not_gt _ _ Hd). reflexivity.
Qed.

Lemma dark_region_scan (d : list Pixel) :
  Forall dark d -> forall s, fold_left scanPixel d s = s.
Proof.
  induction 1 as [|p d Hp _ IH]; intros s; simpl; [reflexivity|].
  rewrite (dark_sample_skipped s p Hp). apply IH.
Qed.

(** C2, as the claim states it, fails: the single sample (0, 30, 0) has
    brightness 10 and the region is labelled "Green". *)
Lemma classify_dark_not_unknown :
  Forall dark (data (uniform 1 0 30 0))
  /\ analyzeTrafficLightColor (Some (uniform 1 0 30 0)) <> Normal "Unknown".
Proof.
  split.
  - repeat constructor.
  - rewrite classify_faint_green_pixel. discriminate.
Qed.

(** C2 (amended): for every region in which every sample has brightness
    [(R + G + B) / 3] at most 10, no bucket receives a sample and the label
    is decided by the whole-region test alone: "Green" when the means of
    the whole region satisfy [G > R + 1], [G > B + 1] and [G > 20], and
    "Unknown" otherwise. *)
Theorem classify_dark_region (img : ImageData) :
  Forall dark (data img) ->
  scan (data img) = noSums
  /\ analyzeTrafficLightColor (Some img) =
     Normal (if overallGreen (data img) then "Green" else "Unknown").
Proof.
  intros Hdark.
  assert (Hscan : scan (data img) = noSums)
    by apply (dark_region_scan _ Hdark).
  split; [exact Hscan|].
  rewrite analyze_tiers, Hscan. reflexivity.
Qed.

Lemma classify_dark_region_witness :
  Forall dark (data nearBlack)
  /\ analyzeTrafficLightColor (Some nearBlack) = Normal "Unknown".
Proof.
  assert (Hdark : Forall dark (data nearBlack)) by (repeat constructor).
  split; [exact Hdark|].
  destruct (classify_dark_region nearBlack Hdark) as [_ H].
  rewrite H. vm_compute. reflexivity.
Defined.

(** *** Uniform regions *)

Lemma scan_uniform_bright (r g b : Z) (d : list Pixel) :
  JS.gt (brightness r g b) 60 = true ->
  Forall (fun p => rgb p = (r, g, b)) d ->
  forall s,
    fold_left scanPixel d s =
    {| redSum := redSum s + r * count d;
       greenSum := greenSum s + g * count d;
       blueSum := blueSum s + b * count d;
       brightPixels := brightPixels s + count d;
       dimPixels := dimPixels s; dimRedSum := dimRedSum s;
       dimGreenSum := dimGreenSum s; dimBlueSum := dimBlueSum s;
       veryDimPixels := veryDimPixels s; veryDimRedSum := veryDimRedSum s;
       veryDimGreenSum := veryDimGreenSum s;
       veryDimBlueSum := veryDimBlueSum s |}.
Proof.
  intros Hb Hall. unfold count.
  induction Hall as [|p d Hp _ IH]; intros s.
  - destruct s. cbn. f_equal; lia.
  - cbn [fold_left length]. rewrite IH.
    unfold rgb in Hp. injection Hp as Hr Hg Hbl.
    unfold scanPixel, scanSample. rewrite Hr, Hg, Hbl, Hb.
    cbn [redSum greenSum blueSum brightPixels dimPixels dimRedSum
         dimGreenSum dimBlueSum veryDimPixels veryDimRedSum veryDimGreenSum
         veryDimBlueSum].
    f_equal; lia.
Qed.

(** C3, as the claim states it, fails: a single sample (150, 120, 50) is
    not labelled "Yellow". *)
Lemma classify_amber_not_yellow :
  analyzeTrafficLightColor (Some (uniform 1 150 120 50)) <> Normal "Yellow".
Proof. rewrite classify_amber_pixel. discriminate. Qed.

(** C3 (amended): for every non-empty region whose samples are uniformly
    R=150, G=120, B=50 (of a size whose channel sums are exact numbers),
    all samples fall in the bright bucket, whose means are exactly 150,
    120 and 50.  They fail the bright green rule and satisfy both the
    bright red rule (150 > 120 + 20 and 150 > 50 + 20) and the bright
    yellow rule; red is tested first, so the label is "Red". *)
Theorem classify_uniform_amber (img : ImageData) :
  data img <> [] ->
  Forall (fun p => rgb p = (150, 120, 50)%Z) (data img) ->
  (255 * count (data img) < 2 ^ 53)%Z ->
  let s := scan (data img) in
  (avgRed s = 150 /\ avgGreen s = 120 /\ avgBlue s = 50)%float
  /\ brightGreen (avgRed s) (avgGreen s) (avgBlue s) = false
  /\ brightRed (avgRed s) (avgGreen s) (avgBlue s) = true
  /\ brightYellow (avgRed s) (avgGreen s) (avgBlue s) = true
  /\ analyzeTrafficLightColor (Some img) = Normal "Red".
Proof.
  intros Hne Hall Hb s.
  assert (Hn : (0 < count (data img))%Z).
  { unfold count. destruct (data img); [contradiction|]. cbn [length]. lia. }
  set (n := count (data img)) in *.
  assert (Hs : s = {| redSum := 150 * n; greenSum := 120 * n;
                      blueSum := 50 * n; brightPixels := n;
                      dimPixels := 0; dimRedSum := 0;
                      dimGreenSum := 0; dimBlueSum := 0;
                      veryDimPixels := 0; veryDimRedSum := 0;
                      veryDimGreenSum := 0; veryDimBlueSum := 0 |}).
  { unfold s, scan.
    rewrite (scan_uniform_bright 150 120 50) by
      (try exact Hall; vm_compute; reflexivity).
    reflexivity. }
  assert (Hr : avgRed s = 150%float).
  { rewrite Hs. unfold avgRed; cbn [redSum brightPixels].
    rewrite of_Z_div_exact by lia. vm_compute. reflexivity. }
  assert (Hg : avgGreen s = 120%float).
  { rewrite Hs. unfold avgGreen; cbn [greenSum brightPixels].
    rewrite of_Z_div_exact by lia. vm_compute. reflexivity. }
  assert (Hbl : avgBlue s = 50%float).
  { rewrite Hs. unfold avgBlue; cbn [blueSum brightPixels].
    rewrite of_Z_div_exact by lia. vm_compute. reflexivity. }
  split; [repeat split; assumption|].
  rewrite Hr, Hg, Hbl.
  split; [vm_compute; reflexivity|].
  split; [vm_compute; reflexivity|].
  split; [vm_compute; reflexivity|].
  rewrite analyze_tiers. fold s.
  rewrite brightTier_taken by (rewrite Hs; cbn [brightPixels]; lia).
  unfold brightRule. rewrite Hr, Hg, Hbl. vm_compute. reflexivity.
Qed.

Lemma classify_uniform_amber_witness :
  data (uniform 6 150 120 50) <> []
  /\ Forall (fun p => rgb p = (150, 120, 50)%Z) (data (uniform 6 150 120 50))
  /\ (255 * count (data (uniform 6 150 120 50)) < 2 ^ 53)%Z
  /\ analyzeTrafficLightColor (Some (uniform 6 150 120 50)) = Normal "Red".
Proof.
  assert (Hne : data (uniform 6 150 120 50) <> []) by (simpl; discriminate).
  assert (Hall : Forall (fun p => rgb p = (150, 120, 50)%Z)
                        (data (uniform 6 150 120 50)))
    by (repeat constructor).
  assert (Hb : (255 * count (data (uniform 6 150 120 50)) < 2 ^ 53)%Z)
    by (vm_compute; reflexivity).
  split; [exact Hne|]. split; [exact Hall|]. split; [exact Hb|].
  apply (classify_uniform_amber (uniform 6 150 120 50) Hne Hall Hb).
Defined.

End Classify.

(** ** Further facts about binary64 arithmetic *)

Section FloatArith.

Local Open Scope Z_scope.

Lemma SFadd_comm (x y : spec_float) :
  SFadd prec emax x y = SFadd prec emax y x.
Proof.
  destruct x as [sx|sx| |sx mx ex], y as [sy|sy| |sy my ey]; simpl;
    try reflexivity; try (destruct sx, sy; reflexivity).
  rewrite (Z.min_comm ey ex), Z.add_comm. reflexivity.
Qed.

(** The sign given to the rounding only shows in the sign of its result. *)
Lemma SFabs_round_aux (s s' : bool) (m e : Z) (l : location) :
  SFabs (binary_round_aux prec emax s m e l) =
  SFabs (binary_round_aux prec emax s' m e l).
Proof.
  unfold binary_round_aux.
  destruct (shr_fexp prec emax m e l) as [mrs e1].
  destruct (shr_fexp prec emax _ e1 loc_Exact) as [mrs2 e2].
  destruct (shr_m mrs2); try reflexivity.
  destruct (e2 <=? emax - prec); reflexivity.
Qed.

Lemma SFabs_normalize_opp (z e : Z) :
  SFabs (binary_normalize prec emax z e false) =
  SFabs (binary_normalize prec emax (- z) e false).
Proof.
  destruct z as [|m|m]; simpl; try reflexivity;
    unfold binary_round;
    destruct (shl_align m e _) as [mz ez]; apply SFabs_round_aux.
Qed.

Lemma SFabs_sub_swap (x y : spec_float) :
  SFabs (SFsub prec emax x y) = SFabs (SFsub prec emax y x).
Proof.
  destruct x as [sx|sx| |sx mx ex], y as [sy|sy| |sy my ey]; simpl;
    try reflexivity; try (destruct sx, sy; reflexivity).
  rewrite (Z.min_comm ey ex).
  rewrite SFabs_normalize_opp. f_equal. f_equal. lia.
Qed.

(** Addition of numbers is commutative, and [|a - b| = |b - a|]. *)
Lemma add_comm_float (a b : float) : (a + b)%float = (b + a)%float.
Proof.
  apply Prim2SF_inj. rewrite !FloatAxioms.add_spec. apply SFadd_comm.
Qed.

Lemma abs_sub_swap (a b : float) :
  JS.Math_abs (a - b)%float = JS.Math_abs (b - a)%float.
Proof.
  unfold JS.Math_abs. apply Prim2SF_inj.
  rewrite !FloatAxioms.abs_spec, !FloatAxioms.sub_spec.
  apply SFabs_sub_swap.
Qed.

End FloatArith.

(** ** More on [estimatePoleHeight] and its callers *)

Section EstimateRange.

Local Open Scope float_scope.
Local Open Scope string_scope.

Ltac pick_row := cbn [In]; repeat (first [left; reflexivity | right]).

(** Whatever the arguments, the record returned is a row of the table. *)
Lemma estimate_in_table (x1 y1 x2 y2 imageWidth imageHeight : float) :
  exists r,
    estimatePoleHeight x1 y1 x2 y2 imageWidth imageHeight = Normal r
    /\ In r poleHeightTable.
Proof.
  rewrite estimatePoleHeight_stages. cbv zeta.
  eexists. split; [reflexivity|].
  unfold positionBase, sizeAdjust.
  destruct (JS.gt ((y1 + y2) / 2 / imageHeight) 0.7),
           (JS.gt ((y1 + y2) / 2 / imageHeight) 0.4),
           (JS.gt (JS.Math_abs (y2 - y1) / imageHeight) 0.1),
           (JS.lt (JS.Math_abs (y2 - y1) / imageHeight) 0.02);
    vm_compute; pick_row.
Qed.

(** X1: [estimatePoleHeight] has exactly nine possible results, the rows
    of [poleHeightTable]: every call returns one of them, each of them is
    returned for some box, and the estimated height always lies between
    4.1 and 7.3. *)
Theorem estimate_nine_results :
  (forall x1 y1 x2 y2 imageWidth imageHeight,
      exists r,
        estimatePoleHeight x1 y1 x2 y2 imageWidth imageHeight = Normal r
        /\ In r poleHeightTable)
  /\ (forall r, In r poleHeightTable ->
        exists y1 y2,
          estimatePoleHeight 0 y1 0 y2 1000 1000 = Normal r)
  /\ (forall r, In r poleHeightTable ->
        PrimFloat.leb 4.1 (estimatedHeight r) = true
        /\ PrimFloat.leb (estimatedHeight r) 7.3 = true).
Proof.
  split; [exact estimate_in_table|]. split.
  - intros r Hr. cbn [poleHeightTable In] in Hr.
    repeat (destruct Hr as [<- | Hr]); try contradiction.
    + exists 700, 900. vm_compute. reflexivity.
    + exists 775, 825. vm_compute. reflexivity.
    + exists 795, 805. vm_compute. reflexivity.
    + exists 400, 600. vm_compute. reflexivity.
    + exists 475, 525. vm_compute. reflexivity.
    + exists 495, 505. vm_compute. reflexivity.
    + exists 0, 200. vm_compute. reflexivity.
    + exists 75, 125. vm_compute. reflexivity.
    + exists 95, 105. vm_compute. reflexivity.
  - intros r Hr. cbn [poleHeightTable In] in Hr.
    repeat (destruct Hr as [<- | Hr]); try contradiction;
      split; vm_compute; reflexivity.
Qed.

(** X2: the estimate does not depend on which of the two vertical
    coordinates is the top: exchanging [y1] and [y2] (a box given upside
    down) gives the same record, whatever the horizontal coordinates and
    the image width. *)
Theorem estimate_swap_vertical
  (x1 x2 x1' x2' y1 y2 imageWidth imageWidth' imageHeight : float) :
  estimatePoleHeight x1 y1 x2 y2 imageWidth imageHeight =
  estimatePoleHeight x1' y2 x2' y1 imageWidth' imageHeight.
Proof.
  unfold estimatePoleHeight.
  rewrite (abs_sub_swap y2 y1), (add_comm_float y1 y2). reflexivity.
Qed.


(** X4: the badge of a pole height shows 50, 60, 70, 80 or 90 percent;
    it has the "default" variant from 80 percent on and the "secondary"
    variant up to 60 percent, while at 70 percent both variants occur:
    0.8 - 0.1 is a number above 0.7 and 0.6 + 0.1 is 0.7 itself. *)
Theorem badge_of_estimate
  (x1 y1 x2 y2 imageWidth imageHeight : float) (r : PoleHeight) :
  estimatePoleHeight x1 y1 x2 y2 imageWidth imageHeight = Normal r ->
  In (badgePercent r) [50; 60; 70; 80; 90]
  /\ (JS_ge (badgePercent r) 80 = true -> badgeVariant r = "default")
  /\ (PrimFloat.leb (badgePercent r) 60 = true ->
      badgeVariant r = "secondary")
  /\ (exists r1 r2,
         In r1 poleHeightTable /\ In r2 poleHeightTable
         /\ badgePercent r1 = 70 /\ badgePercent r2 = 70
         /\ badgeVariant r1 = "default" /\ badgeVariant r2 = "secondary").
Proof.
  intros Hcall.
  destruct (estimate_in_table x1 y1 x2 y2 imageWidth imageHeight)
    as (r' & Hr' & Hin).
  rewrite Hcall in Hr'. injection Hr' as <-.
  split; [|split; [|split]].
  - cbn [poleHeightTable In] in Hin.
    repeat (destruct Hin as [<- | Hin]); try contradiction;
      vm_compute; pick_row.
  - cbn [poleHeightTable In] in Hin.
    repeat (destruct Hin as [<- | Hin]); try contradiction;
      vm_compute; intros H; (reflexivity || discriminate H).
  - cbn [poleHeightTable In] in Hin.
    repeat (destruct Hin as [<- | Hin]); try contradiction;
      vm_compute; intros H; (reflexivity || discriminate H).
  - exists {| estimatedHeight := 5.4; confidence := 0.70000000000000007;
              referenceUsed := "Standard urban intersection" |},
           {| estimatedHeight := 5.5; confidence := 0.7;
              referenceUsed := "Highway overpass" |}.
    repeat split; try (vm_compute; reflexivity);
      unfold poleHeightTable; pick_row.
Qed.

Lemma badge_of_estimate_witness :
  estimatePoleHeight 0 795 0 805 1000 1000 =
    Normal {| estimatedHeight := 5.4; confidence := 0.70000000000000007;
              referenceUsed := "Standard urban intersection" |}
  /\ badgePercent {| estimatedHeight := 5.4;
                     confidence := 0.70000000000000007;
                     referenceUsed := "Standard urban intersection" |} = 70
  /\ In (badgePercent {| estimatedHeight := 5.4;
                         confidence := 0.70000000000000007;
                         referenceUsed := "Standard urban intersection" |})
        [50; 60; 70; 80; 90].
Proof.
  assert (Hcall : estimatePoleHeight 0 795 0 805 1000 1000 =
    Normal {| estimatedHeight := 5.4; confidence := 0.70000000000000007;
              referenceUsed := "Standard urban intersection" |})
    by (vm_compute; reflexivity).
  split; [exact Hcall|]. split; [vm_compute; reflexivity|].
  exact (proj1 (badge_of_estimate 0 795 0 805 1000 1000 _ Hcall)).
Defined.

End EstimateRange.

(** ** More on [analyzeTrafficLightColor] *)

Section ClassifyMore.

Local Open Scope string_scope.

(** *** The labels *)

Lemma firstRule_labels (green red yellow : bool) (l : string) :
  firstRule green red yellow = Some l -> In l ["Green"; "Red"; "Yellow"].
Proof.
  unfold firstRule. destruct green, red, yellow; intros H;
    try discriminate H; injection H as <-; cbn; auto.
Qed.

Lemma tier_labels (s : Sums) (l : string) :
  brightTier s = Some l \/ dimTier s = Some l \/ veryDimTier s = Some l ->
  In l ["Green"; "Red"; "Yellow"].
Proof.
  unfold brightTier, dimTier, veryDimTier, brightRule, dimRule, veryDimRule.
  intros [H | [H | H]];
    match type of H with
    | (if ?c then _ else _) = _ => destruct c; [|discriminate H]
    end;
    exact (firstRule_labels _ _ _ _ H).
Qed.

(** X5: [analyzeTrafficLightColor] only ever returns one of the four
    labels "Green", "Red", "Yellow" and "Unknown"; "Red" and "Yellow"
    come from a bucket only, never from the whole-region test. *)
Theorem classify_four_labels (imageData : option ImageData) :
  exists label,
    analyzeTrafficLightColor imageData = Normal label
    /\ In label ["Green"; "Red"; "Yellow"; "Unknown"]
    /\ (label = "Red" \/ label = "Yellow" ->
        exists img, imageData = Some img
          /\ (brightTier (scan (data img)) = Some label
              \/ dimTier (scan (data img)) = Some label
              \/ veryDimTier (scan (data img)) = Some label)).
Proof.
  destruct imageData as [img|].
  2:{ exists "Unknown". split; [reflexivity|]. split; [cbn; auto|].
      intros [H | H]; discriminate H. }
  rewrite analyze_tiers.
  destruct (brightTier (scan (data img))) as [l|] eqn:Hb.
  { exists l. split; [reflexivity|]. split.
    - pose proof (tier_labels _ _ (or_introl Hb)) as H. cbn in H |- *. tauto.
    - intros _. exists img. auto. }
  destruct (dimTier (scan (data img))) as [l|] eqn:Hd.
  { exists l. split; [reflexivity|]. split.
    - pose proof (tier_labels _ _ (or_intror (or_introl Hd))) as H.
      cbn in H |- *. tauto.
    - intros _. exists img. auto. }
  destruct (veryDimTier (scan (data img))) as [l|] eqn:Hv.
  { exists l. split; [reflexivity|]. split.
    - pose proof (tier_labels _ _ (or_intror (or_intror Hv))) as H.
      cbn in H |- *. tauto.
    - intros _. exists img. auto. }
  destruct (overallGreen (data img)).
  - exists "Green". split; [reflexivity|]. split; [cbn; auto|].
    intros [H | H]; discriminate H.
  - exists "Unknown". split; [reflexivity|]. split; [cbn; auto|].
    intros [H | H]; discriminate H.
Qed.

(** *** Bucket sizes and sums *)

Lemma count_nonneg (d : list Pixel) : (0 <= count d)%Z.
Proof. unfold count. lia. Qed.

Lemma bands_disjoint (d : list Pixel) :
  (count (filter inBright d) + count (filter inDim d)
   + count (filter inVeryDim d) <= count d)%Z.
Proof.
  unfold count. induction d as [|p d IH]; [cbn; lia|].
  cbn [filter].
  set (bright := filter inBright d) in *.
  set (dim := filter inDim d) in *.
  set (veryDim := filter inVeryDim d) in *.
  unfold inBright, inDim, inVeryDim.
  destruct (JS.gt (brightness (R p) (G p) (B p)) 60),
    (JS.gt (brightness (R p) (G p) (B p)) 25),
    (JS.gt (brightness (R p) (G p) (B p)) 10);
    cbn [negb andb length]; lia.
Qed.

Lemma total_bounds (channel : Pixel -> Z) (d : list Pixel) :
  Forall (fun p => u8 (channel p)) d ->
  (0 <= total channel d <= 255 * count d)%Z.
Proof.
  unfold total, count, u8.
  induction 1 as [|p d Hp _ IH]; cbn [fold_right length]; lia.
Qed.

Lemma Forall_filter_keep {T : Type} (P : T -> Prop) (f : T -> bool) l :
  Forall P l -> Forall P (filter f l).
Proof.
  induction 1 as [|x l Hx _ IH]; cbn [filter]; [constructor|].
  destruct (f x); [constructor; assumption | assumption].
Qed.

(** X6: after the first loop every sample has been counted in at most one
    bucket, so the three counts add up to at most the number of samples;
    and for samples that are bytes every channel sum of a bucket lies
    between 0 and 255 times the count of that bucket. *)
Theorem scan_counts_and_sums (d : list Pixel) :
  Forall wf_pixel d ->
  let s := scan d in
  (0 <= brightPixels s /\ 0 <= dimPixels s /\ 0 <= veryDimPixels s
   /\ brightPixels s + dimPixels s + veryDimPixels s <= count d)%Z
  /\ (0 <= redSum s <= 255 * brightPixels s
      /\ 0 <= greenSum s <= 255 * brightPixels s
      /\ 0 <= blueSum s <= 255 * brightPixels s)%Z
  /\ (0 <= dimRedSum s <= 255 * dimPixels s
      /\ 0 <= dimGreenSum s <= 255 * dimPixels s
      /\ 0 <= dimBlueSum s <= 255 * dimPixels s)%Z
  /\ (0 <= veryDimRedSum s <= 255 * veryDimPixels s
      /\ 0 <= veryDimGreenSum s <= 255 * veryDimPixels s
      /\ 0 <= veryDimBlueSum s <= 255 * veryDimPixels s)%Z.
Proof.
  intros Hwf s. unfold s. rewrite scan_bands. unfold bandSums.
  cbn [redSum greenSum blueSum brightPixels dimPixels dimRedSum dimGreenSum
       dimBlueSum veryDimPixels veryDimRedSum veryDimGreenSum veryDimBlueSum].
  assert (HR : Forall (fun p => u8 (R p)) d)
    by (eapply Forall_impl; [|exact Hwf]; unfold wf_pixel; tauto).
  assert (HG : Forall (fun p => u8 (G p)) d)
    by (eapply Forall_impl; [|exact Hwf]; unfold wf_pixel; tauto).
  assert (HB : Forall (fun p => u8 (B p)) d)
    by (eapply Forall_impl; [|exact Hwf]; unfold wf_pixel; tauto).
  pose proof (bands_disjoint d) as Hdisj.
  pose proof (count_nonneg (filter inBright d)).
  pose proof (count_nonneg (filter inDim d)).
  pose proof (count_nonneg (filter inVeryDim d)).
  split; [lia|].
  repeat split;
    try (apply total_bounds, Forall_filter_keep; assumption).
Qed.

Lemma scan_counts_and_sums_witness :
  Forall wf_pixel (data redAndGreen)
  /\ (brightPixels (scan (data redAndGreen))
      + dimPixels (scan (data redAndGreen))
      + veryDimPixels (scan (data redAndGreen))
      <= count (data redAndGreen))%Z.
Proof.
  assert (Hwf : Forall wf_pixel (data redAndGreen))
    by (repeat constructor; unfold u8; cbn; lia).
  split; [exact Hwf|].
  destruct (scan_counts_and_sums (data redAndGreen) Hwf) as [H _].
  apply H.
Defined.

(** *** Regions of one colour *)

Lemma of_Z_div_exact0 (q n : Z) :
  (0 <= q)%Z -> (0 < n)%Z -> (n < 2 ^ 53)%Z -> (q * n < 2 ^ 53)%Z ->
  (JS.of_Z (q * n) / JS.of_Z n)%float = JS.of_Z q.
Proof.
  intros Hq Hn Hn' Hb.
  destruct (Z.eq_dec q 0) as [-> | Hq0];
    [|apply of_Z_div_exact; lia].
  destruct n as [|n|n]; try lia.
  apply Prim2SF_inj. rewrite FloatAxioms.div_spec.
  rewrite (of_Z_pos_spec n Hn').
  destruct (normalize_pos n Hn') as (m & -> & _).
  reflexivity.
Qed.

Lemma total_uniform (channel : Pixel -> Z) (c : Z) (d : list Pixel) :
  Forall (fun p => channel p = c) d -> total channel d = (c * count d)%Z.
Proof.
  unfold total, count.
  induction 1 as [|p d Hp _ IH]; cbn [fold_right length]; lia.
Qed.

Lemma filter_uniform (f : Pixel -> bool) (v : bool) (d : list Pixel) :
  Forall (fun p => f p = v) d -> filter f d = if v then d else [].
Proof.
  induction 1 as [|p d Hp _ IH]; cbn [filter].
  - destruct v; reflexivity.
  - rewrite Hp, IH. destruct v; reflexivity.
Qed.

Lemma overall_totals (d : list Pixel) :
  overall d = (total R d, total G d, total B d).
Proof.
  unfold overall.
  assert (H : forall a b c,
             fold_left addOverall d (a, b, c) =
             (a + total R d, b + total G d, c + total B d)%Z).
  { unfold total. induction d as [|p d IH]; intros a b c.
    - cbn. f_equal; [f_equal|]; lia.
    - cbn [fold_left fold_right addOverall]. rewrite IH.
      f_equal; [f_equal|]; lia. }
  rewrite H. reflexivity.
Qed.

Section OneColour.

Variables r g b : Z.
Variable d : list Pixel.
Hypothesis Hr : u8 r.
Hypothesis Hg : u8 g.
Hypothesis Hb : u8 b.
Hypothesis Hne : d <> [].
Hypothesis Hall : Forall (fun p => rgb p = (r, g, b)) d.
Hypothesis Hsize : (255 * count d < 2 ^ 53)%Z.

Lemma one_colour_count : (0 < count d < 2 ^ 53)%Z.
Proof.
  unfold count in *. destruct d; [contradiction|]. cbn [length] in *. lia.
Qed.

Lemma one_colour_channels :
  Forall (fun p => R p = r) d /\ Forall (fun p => G p = g) d
  /\ Forall (fun p => B p = b) d.
Proof.
  repeat split; (eapply Forall_impl; [|exact Hall]);
    intros p Hp; unfold rgb in Hp; injection Hp; auto.
Qed.

Lemma one_colour_mean (channel : Pixel -> Z) (c : Z) :
  u8 c -> Forall (fun p => channel p = c) d ->
  (JS.of_Z (total channel d) / JS.of_Z (count d))%float = JS.of_Z c.
Proof.
  intros Hc Hch. pose proof one_colour_count as Hn. unfold u8 in *.
  rewrite (total_uniform channel c d Hch).
  apply of_Z_div_exact0; nia.
Qed.

Lemma one_colour_band (f : Pixel -> bool) (v : bool) :
  (forall p, rgb p = (r, g, b) -> f p = v) ->
  filter f d = if v then d else [].
Proof.
  intros Hf. apply filter_uniform.
  eapply Forall_impl; [|exact Hall]. exact Hf.
Qed.

Lemma one_colour_brightTier :
  brightTier (scan d) =
  if JS.gt (brightness r g b) 60 then
    firstRule (brightGreen (JS.of_Z r) (JS.of_Z g) (JS.of_Z b))
              (brightRed (JS.of_Z r) (JS.of_Z g) (JS.of_Z b))
              (brightYellow (JS.of_Z r) (JS.of_Z g) (JS.of_Z b))
  else None.
Proof.
  destruct one_colour_channels as (HR & HG & HB).
  pose proof one_colour_count as Hn.
  rewrite scan_bands.
  unfold brightTier, brightRule, avgRed, avgGreen, avgBlue, bandSums.
  cbn [redSum greenSum blueSum brightPixels].
  rewrite (one_colour_band inBright (JS.gt (brightness r g b) 60)).
  2:{ intros p Hp. unfold rgb in Hp. injection Hp as H1 H2 H3.
      unfold inBright, inDim, inVeryDim. rewrite H1, H2, H3. reflexivity. }
  destruct (JS.gt (brightness r g b) 60); [|reflexivity].
  replace (0 <? count d)%Z with true by (symmetry; apply Z.ltb_lt; lia).
  rewrite (one_colour_mean R r Hr HR), (one_colour_mean G g Hg HG),
    (one_colour_mean B b Hb HB).
  reflexivity.
Qed.

Lemma one_colour_dimTier :
  dimTier (scan d) =
  if negb (JS.gt (brightness r g b) 60) && JS.gt (brightness r g b) 25 then
    firstRule (dimGreen (JS.of_Z r) (JS.of_Z g) (JS.of_Z b))
              (dimRed (JS.of_Z r) (JS.of_Z g) (JS.of_Z b))
              (dimYellow (JS.of_Z r) (JS.of_Z g) (JS.of_Z b))
  else None.
Proof.
  destruct one_colour_channels as (HR & HG & HB).
  pose proof one_colour_count as Hn.
  rewrite scan_bands.
  unfold dimTier, dimRule, dimAvgRed, dimAvgGreen, dimAvgBlue, bandSums.
  cbn [dimRedSum dimGreenSum dimBlueSum dimPixels].
  rewrite (one_colour_band inDim
             (negb (JS.gt (brightness r g b) 60)
              && JS.gt (brightness r g b) 25)).
  2:{ intros p Hp. unfold rgb in Hp. injection Hp as H1 H2 H3.
      unfold inBright, inDim, inVeryDim. rewrite H1, H2, H3. reflexivity. }
  destruct (negb (JS.gt (brightness r g b) 60)
            && JS.gt (brightness r g b) 25); [|reflexivity].
  replace (0 <? count d)%Z with true by (symmetry; apply Z.ltb_lt; lia).
  rewrite (one_colour_mean R r Hr HR), (one_colour_mean G g Hg HG),
    (one_colour_mean B b Hb HB).
  reflexivity.
Qed.

Lemma one_colour_veryDimTier :
  veryDimTier (scan d) =
  if negb (JS.gt (brightness r g b) 60)
     && negb (JS.gt (brightness r g b) 25)
     && JS.gt (brightness r g b) 10 then
    firstRule (veryDimGreen (JS.of_Z r) (JS.of_Z g) (JS.of_Z b))
              (veryDimRed (JS.of_Z r) (JS.of_Z g) (JS.of_Z b))
              (veryDimYellow (JS.of_Z r) (JS.of_Z g) (JS.of_Z b))
  else None.
Proof.
  destruct one_colour_channels as (HR & HG & HB).
  pose proof one_colour_count as Hn.
  rewrite scan_bands.
  unfold veryDimTier, veryDimRule, veryDimAvgRed, veryDimAvgGreen,
    veryDimAvgBlue, bandSums.
  cbn [veryDimRedSum veryDimGreenSum veryDimBlueSum veryDimPixels].
  rewrite (one_colour_band inVeryDim
             (negb (JS.gt (brightness r g b) 60)
              && negb (JS.gt (brightness r g b) 25)
              && JS.gt (brightness r g b) 10)).
  2:{ intros p Hp. unfold rgb in Hp. injection Hp as H1 H2 H3.
      unfold inBright, inDim, inVeryDim. rewrite H1, H2, H3. reflexivity. }
  destruct (negb (JS.gt (brightness r g b) 60)
            && negb (JS.gt (brightness r g b) 25)
            && JS.gt (brightness r g b) 10); [|reflexivity].
  replace (0 <? count d)%Z with true by (symmetry; apply Z.ltb_lt; lia).
  rewrite (one_colour_mean R r Hr HR), (one_colour_mean G g Hg HG),
    (one_colour_mean B b Hb HB).
  reflexivity.
Qed.

Lemma one_colour_overallGreen :
  overallGreen d =
  (JS.gt (JS.of_Z g) (JS.of_Z r + 1) && JS.gt (JS.of_Z g) (JS.of_Z b + 1)
   && JS.gt (JS.of_Z g) 20)%float.
Proof.
  destruct one_colour_channels as (HR & HG & HB).
  unfold overallGreen. rewrite overall_totals. fold (count d).
  rewrite (one_colour_mean R r Hr HR), (one_colour_mean G g Hg HG),
    (one_colour_mean B b Hb HB).
  reflexivity.
Qed.

End OneColour.

(** X7: the label of a region of one colour does not depend on its size:
    every non-empty region whose samples all have the channels (r, g, b)
    gets the label of the single sample (r, g, b), because every mean is
    exactly the channel value. *)
Theorem classify_one_colour_any_size (r g b : Z) (img : ImageData) :
  u8 r -> u8 g -> u8 b ->
  data img <> [] ->
  Forall (fun p => rgb p = (r, g, b)) (data img) ->
  (255 * count (data img) < 2 ^ 53)%Z ->
  analyzeTrafficLightColor (Some img) =
  analyzeTrafficLightColor (Some (uniform 1 r g b)).
Proof.
  intros Hr Hg Hb Hne Hall Hsize.
  assert (Hne1 : data (uniform 1 r g b) <> []) by (cbn; discriminate).
  assert (Hall1 : Forall (fun p => rgb p = (r, g, b)) (data (uniform 1 r g b)))
    by (repeat constructor).
  assert (Hsize1 : (255 * count (data (uniform 1 r g b)) < 2 ^ 53)%Z)
    by (cbn; lia).
  rewrite !analyze_tiers.
  rewrite (one_colour_brightTier r g b (data img)),
    (one_colour_dimTier r g b (data img)),
    (one_colour_veryDimTier r g b (data img)),
    (one_colour_overallGreen r g b (data img)) by assumption.
  rewrite (one_colour_brightTier r g b (data (uniform 1 r g b))),
    (one_colour_dimTier r g b (data (uniform 1 r g b))),
    (one_colour_veryDimTier r g b (data (uniform 1 r g b))),
    (one_colour_overallGreen r g b (data (uniform 1 r g b))) by assumption.
  reflexivity.
Qed.

Lemma classify_one_colour_any_size_witness :
  u8 0 /\ u8 255 /\ data (uniform 7 0 255 0) <> []
  /\ Forall (fun p => rgb p = (0, 255, 0)%Z) (data (uniform 7 0 255 0))
  /\ (255 * count (data (uniform 7 0 255 0)) < 2 ^ 53)%Z
  /\ analyzeTrafficLightColor (Some (uniform 7 0 255 0)) = Normal "Green".
Proof.
  assert (H0 : u8 0) by (unfold u8; lia).
  assert (H255 : u8 255) by (unfold u8; lia).
  assert (Hne : data (uniform 7 0 255 0) <> []) by (cbn; discriminate).
  assert (Hall : Forall (fun p => rgb p = (0, 255, 0)%Z)
                        (data (uniform 7 0 255 0)))
    by (repeat constructor).
  assert (Hsize : (255 * count (data (uniform 7 0 255 0)) < 2 ^ 53)%Z)
    by (vm_compute; reflexivity).
  repeat (split; [assumption|]).
  rewrite (classify_one_colour_any_size 0 255 0 (uniform 7 0 255 0)
             H0 H255 H0 Hne Hall Hsize).
  vm_compute. reflexivity.
Defined.

(** *** Black samples around a light *)

Lemma scanPixel_comm (s : Sums) (p q : Pixel) :
  scanPixel (scanPixel s p) q = scanPixel (scanPixel s q) p.
Proof. exact (scanTriple_comm s (rgb p) (rgb q)). Qed.

(** X8: samples of brightness at most 10 never reach a bucket, wherever
    they stand in the region: adding them leaves the twelve accumulators
    unchanged, and a label decided by a bucket stays the same.  A label
    that comes from the whole-region test can change: one faint green
    sample is "Green", the same sample next to a black one is "Unknown". *)
Theorem classify_dark_padding (img img' : ImageData) (padding : list Pixel) :
  Forall dark padding ->
  Permutation (data img') (data img ++ padding) ->
  scan (data img') = scan (data img)
  /\ (forall label,
         brightTier (scan (data img)) = Some label
         \/ (brightTier (scan (data img)) = None
             /\ dimTier (scan (data img)) = Some label)
         \/ (brightTier (scan (data img)) = None
             /\ dimTier (scan (data img)) = None
             /\ veryDimTier (scan (data img)) = Some label) ->
         analyzeTrafficLightColor (Some img') = Normal label
         /\ analyzeTrafficLightColor (Some img) = Normal label)
  /\ (analyzeTrafficLightColor (Some faintGreen) = Normal "Green"
      /\ analyzeTrafficLightColor (Some faintGreenOnBlack) = Normal "Unknown").
Proof.
  intros Hdark Hperm.
  assert (Hscan : scan (data img') = scan (data img)).
  { unfold scan.
    rewrite (fold_left_permutation scanPixel scanPixel_comm _ _ Hperm).
    rewrite fold_left_app. apply dark_region_scan. exact Hdark. }
  split; [exact Hscan|]. split.
  - intros label H. rewrite !analyze_tiers, Hscan.
    destruct H as [H | [(H1 & H2) | (H1 & H2 & H3)]].
    + rewrite H. split; reflexivity.
    + rewrite H1, H2. split; reflexivity.
    + rewrite H1, H2, H3. split; reflexivity.
  - split; vm_compute; reflexivity.
Qed.

Lemma classify_dark_padding_witness :
  Forall dark (data nearBlack)
  /\ Permutation (data nearBlack ++ data redAndGreen)
                 (data redAndGreen ++ data nearBlack)
  /\ scan (data nearBlack ++ data redAndGreen) = scan (data redAndGreen).
Proof.
  assert (Hdark : Forall dark (data nearBlack)) by (repeat constructor).
  assert (Hperm : Permutation (data nearBlack ++ data redAndGreen)
                              (data redAndGreen ++ data nearBlack))
    by apply Permutation_app_comm.
  split; [exact Hdark|]. split; [exact Hperm|].
  exact (proj1 (classify_dark_padding redAndGreen
                  {| data := data nearBlack ++ data redAndGreen |}
                  (data nearBlack) Hdark Hperm)).
Defined.

End ClassifyMore.

(** ** The sign of a difference and the order of numbers

    The comparator of the sort subtracts two confidences and the sort
    looks at the sign of the result.  For binary64 numbers that sign is
    the order of the operands: a difference of two distinct numbers is
    never rounded to zero. *)

Section FloatSign.

Local Open Scope Z_scope.

(** One step of the right shift halves the mantissa. *)
Lemma shr_1_m (mrs : shr_record) :
  0 <= shr_m mrs -> shr_m (shr_1 mrs) = shr_m mrs / 2.
Proof.
  destruct mrs as [m r s]. cbn [shr_m shr_1]. intros Hm.
  destruct m as [|[p|p|]|p]; cbn [shr_m]; try lia.
  - reflexivity.
  - apply (Z.div_unique _ 2 _ 1); lia.
  - apply (Z.div_unique _ 2 _ 0); lia.
  - reflexivity.
Qed.

Lemma shr_iter_m (n : positive) :
  forall mrs, 0 <= shr_m mrs ->
  shr_m (iter_pos shr_1 n mrs) = shr_m mrs / 2 ^ Zpos n.
Proof.
  assert (Hnn : forall mrs, 0 <= shr_m mrs -> 0 <= shr_m (shr_1 mrs)).
  { intros mrs H. rewrite shr_1_m by exact H. apply Z.div_pos; lia. }
  assert (Hp : forall k, 0 < 2 ^ Zpos k) by (intros; apply Z.pow_pos_nonneg; lia).
  induction n as [n IH|n IH|]; intros mrs Hm; cbn [iter_pos].
  - assert (H1 := Hnn _ Hm).
    assert (H2 : 0 <= shr_m (iter_pos shr_1 n (shr_1 mrs))).
    { rewrite IH by exact H1. apply Z.div_pos; [exact H1 | apply Hp]. }
    rewrite IH by exact H2. rewrite IH by exact H1. rewrite shr_1_m by exact Hm.
    assert (E : 2 ^ Zpos n~1 = 2 * 2 ^ Zpos n * 2 ^ Zpos n).
    { rewrite (Pos2Z.inj_xI n).
      replace (2 * Zpos n + 1) with (1 + Zpos n + Zpos n) by lia.
      rewrite !Z.pow_add_r by lia. reflexivity. }
    rewrite E. pose proof (Hp n).
    rewrite !Z.div_div by lia. f_equal. ring.
  - assert (H2 : 0 <= shr_m (iter_pos shr_1 n mrs)).
    { rewrite IH by exact Hm. apply Z.div_pos; [exact Hm | apply Hp]. }
    rewrite IH by exact H2. rewrite IH by exact Hm.
    assert (E : 2 ^ Zpos n~0 = 2 ^ Zpos n * 2 ^ Zpos n).
    { rewrite (Pos2Z.inj_xO n).
      replace (2 * Zpos n) with (Zpos n + Zpos n) by lia.
      rewrite Z.pow_add_r by lia. reflexivity. }
    rewrite E. pose proof (Hp n).
    rewrite Z.div_div by lia. reflexivity.
  - rewrite shr_1_m by exact Hm. reflexivity.
Qed.

Local Abbreviation positive_result x :=
  (x = S754_infinity false \/ exists m e, x = S754_finite false m e).

Lemma fexp_ge_emin (x : Z) : -1074 <= fexp prec emax x.
Proof. unfold fexp, SpecFloat.emin, prec, emax. lia. Qed.

Lemma fexp_cases (x : Z) :
  fexp prec emax x = Z.max (x - 53) (-1074).
Proof. unfold fexp, SpecFloat.emin, prec, emax. reflexivity. Qed.

(** Rounding a positive mantissa at an exponent not below [emin] keeps
    at least its leading bit. *)
Lemma shr_fexp_pos (m : positive) (e : Z) (l : location) :
  -1074 <= e ->
  exists m', shr_m (fst (shr_fexp prec emax (Zpos m) e l)) = Zpos m'
             /\ e <= snd (shr_fexp prec emax (Zpos m) e l).
Proof.
  intros He. unfold shr_fexp, shr. cbn [Zdigits2].
  pose proof (digits_bounds m) as [Dlo Dhi].
  set (d := Zpos (digits2_pos m)) in *.
  assert (Hd : 1 <= d) by (unfold d; lia).
  rewrite fexp_cases.
  destruct (Z.max (d + e - 53) (-1074) - e) as [|k|k] eqn:Ek.
  - exists m. cbn [fst snd]. split; [|lia]. destruct l as [|[ | | ]]; reflexivity.
  - cbn [fst snd]. split with (x := Z.to_pos (Zpos m / 2 ^ Zpos k)).
    assert (Hk : Zpos k = d - 53) by lia.
    assert (Hm0 : shr_m (shr_record_of_loc (Zpos m) l) = Zpos m)
      by (destruct l as [|[ | | ]]; reflexivity).
    rewrite shr_iter_m by (rewrite Hm0; lia). rewrite Hm0.
    assert (Hq : 1 <= Zpos m / 2 ^ Zpos k).
    { apply Z.div_le_lower_bound; [apply Z.pow_pos_nonneg; lia|].
      rewrite Z.mul_1_r.
      apply Z.le_trans with (2 ^ (d - 1)); [|exact Dlo].
      apply Z.pow_le_mono_r; lia. }
    split; [|lia].
    destruct (Zpos m / 2 ^ Zpos k) eqn:E; lia.
  - exists m. cbn [fst snd]. split; [|lia]. destruct l as [|[ | | ]]; reflexivity.
Qed.

Lemma round_aux_positive (m : positive) (e : Z) (l : location) :
  -1074 <= e ->
  positive_result (binary_round_aux prec emax false (Zpos m) e l).
Proof.
  intros He. unfold binary_round_aux.
  destruct (shr_fexp_pos m e l He) as (m1 & Hm1 & He1).
  destruct (shr_fexp prec emax (Zpos m) e l) as [mrs1 e1].
  cbn [fst snd] in Hm1, He1.
  assert (Hr : exists m2, round_nearest_even (shr_m mrs1)
                            (loc_of_shr_record mrs1) = Zpos m2).
  { rewrite Hm1. unfold round_nearest_even.
    destruct (loc_of_shr_record mrs1) as [|[ | | ]];
      try (eexists; reflexivity).
    destruct (Z.even (Zpos m1)); eexists; reflexivity. }
  destruct Hr as (m2 & ->).
  destruct (shr_fexp_pos m2 e1 loc_Exact) as (m3 & Hm3 & He3); [lia|].
  destruct (shr_fexp prec emax (Zpos m2) e1 loc_Exact) as [mrs2 e2].
  cbn [fst snd] in Hm3, He3. rewrite Hm3.
  destruct (e2 <=? emax - prec); [right; eauto | left; reflexivity].
Qed.

Lemma round_positive (m : positive) (e : Z) :
  -1074 <= e -> positive_result (binary_round prec emax false m e).
Proof.
  intros He. unfold binary_round, shl_align.
  pose proof (fexp_ge_emin (Zpos (digits2_pos m) + e)) as Hf.
  destruct (fexp prec emax (Zpos (digits2_pos m) + e) - e) as [|k|k] eqn:Ek;
    apply round_aux_positive; lia.
Qed.

Lemma round_negative (m : positive) (e : Z) :
  SFltb (S754_zero false) (binary_round prec emax true m e) = false.
Proof.
  unfold binary_round.
  destruct (shl_align m e _) as [mz ez].
  unfold binary_round_aux.
  destruct (shr_fexp prec emax (Zpos mz) ez loc_Exact) as [mrs1 e1].
  destruct (shr_fexp prec emax _ e1 loc_Exact) as [mrs2 e2].
  destruct (shr_m mrs2); try reflexivity.
  destruct (e2 <=? emax - prec); reflexivity.
Qed.

Lemma normalize_sign (D e : Z) :
  -1074 <= e ->
  SFltb (S754_zero false) (binary_normalize prec emax D e false) = (0 <? D).
Proof.
  intros He. destruct D as [|p|p]; cbn [binary_normalize].
  - reflexivity.
  - destruct (round_positive p e He) as [-> | (m' & e' & ->)]; reflexivity.
  - apply round_negative.
Qed.

Lemma valid_finite (s : bool) (m : positive) (e : Z) :
  valid_binary (S754_finite s m e) = true ->
  -1074 <= e /\ Zpos m < 2 ^ 53 /\ (-1074 < e -> 2 ^ 52 <= Zpos m).
Proof.
  cbn [SpecFloat.valid_binary]. unfold bounded, canonical_mantissa.
  rewrite andb_true_iff, Z.eqb_eq, fexp_cases. intros [Hc _].
  pose proof (digits_bounds m) as [Dlo Dhi].
  set (d := Zpos (digits2_pos m)) in *.
  assert (Hd : d <= 53) by lia.
  split; [lia|]. split.
  - apply Z.lt_le_trans with (2 ^ d); [exact Dhi|].
    apply Z.pow_le_mono_r; lia.
  - intros He. assert (d = 53) by lia. subst d.
    replace 52 with (Zpos (digits2_pos m) - 1) by lia. exact Dlo.
Qed.

Lemma shl_align_fst (m : positive) (e ez : Z) :
  ez <= e -> Zpos (fst (shl_align m e ez)) = Zpos m * 2 ^ (e - ez).
Proof.
  intros H. unfold shl_align.
  destruct (ez - e) as [|k|k] eqn:E; cbn [fst].
  - replace (e - ez) with 0 by lia. lia.
  - lia.
  - rewrite Zpos_iter. f_equal. f_equal. lia.
Qed.

(** For two valid finite numbers of the same sign the order of the
    aligned mantissas is the order given by exponent, then mantissa. *)
Lemma aligned_order (ma mb : positive) (ea eb : Z) (sa sb : bool) :
  valid_binary (S754_finite sa ma ea) = true ->
  valid_binary (S754_finite sb mb eb) = true ->
  let ez := Z.min ea eb in
  let va := Zpos (fst (shl_align ma ea ez)) in
  let vb := Zpos (fst (shl_align mb eb ez)) in
  match Z.compare eb ea with
  | Lt => vb < va
  | Gt => va < vb
  | Eq => va = Zpos ma /\ vb = Zpos mb
  end.
Proof.
  intros Ha Hb ez va vb.
  apply valid_finite in Ha. apply valid_finite in Hb.
  destruct Ha as (Ea & Ma & Na), Hb as (Eb & Mb & Nb).
  unfold va, vb, ez. rewrite !shl_align_fst by lia.
  destruct (Z.compare_spec eb ea) as [E | E | E].
  - subst. rewrite Z.min_id, Z.sub_diag. lia.
  - replace (Z.min ea eb) with eb by lia. rewrite Z.sub_diag.
    assert (2 ^ 1 <= 2 ^ (ea - eb)) by (apply Z.pow_le_mono_r; lia).
    change (2 ^ 1) with 2 in *. specialize (Na ltac:(lia)). nia.
  - replace (Z.min ea eb) with ea by lia. rewrite Z.sub_diag.
    assert (2 ^ 1 <= 2 ^ (eb - ea)) by (apply Z.pow_le_mono_r; lia).
    change (2 ^ 1) with 2 in *. specialize (Nb ltac:(lia)). nia.
Qed.

Lemma SFsub_sign (A B : spec_float) :
  valid_binary A = true -> valid_binary B = true ->
  SFltb (S754_zero false) (SFsub prec emax A B) = SFltb B A.
Proof.
  intros HA HB.
  destruct A as [sa|sa| |sa ma ea], B as [sb|sb| |sb mb eb];
    try (destruct sa, sb; reflexivity);
    try (destruct sa; reflexivity); try (destruct sb; reflexivity);
    try reflexivity.
  cbn [SFsub].
  pose proof (aligned_order ma mb ea eb sa sb HA HB) as Hord.
  cbv zeta in Hord.
  pose proof (valid_finite _ _ _ HA) as (Ea & _ & _).
  pose proof (valid_finite _ _ _ HB) as (Eb & _ & _).
  rewrite normalize_sign by lia.
  set (va := Zpos (fst (shl_align ma ea (Z.min ea eb)))) in *.
  set (vb := Zpos (fst (shl_align mb eb (Z.min ea eb)))) in *.
  assert (Hva : 0 < va) by (unfold va; lia).
  assert (Hvb : 0 < vb) by (unfold vb; lia).
  unfold SFltb. cbn [SFcompare].
  destruct sa, sb; cbn [cond_Zopp].
  - (* both negative *)
    destruct (eb ?= ea) eqn:E.
    + destruct Hord as [-> ->].
      change (Pos.compare_cont Eq mb ma) with (Pos.compare mb ma).
      destruct (Pos.compare_spec mb ma); cbn [CompOpp];
        [apply Z.ltb_ge | apply Z.ltb_ge | apply Z.ltb_lt]; lia.
    + apply Z.ltb_ge; lia.
    + apply Z.ltb_lt; lia.
  - apply Z.ltb_ge; lia.
  - apply Z.ltb_lt; lia.
  - destruct (eb ?= ea) eqn:E.
    + destruct Hord as [-> ->].
      change (Pos.compare_cont Eq mb ma) with (Pos.compare mb ma).
      destruct (Pos.compare_spec mb ma);
        [apply Z.ltb_ge | apply Z.ltb_lt | apply Z.ltb_ge]; lia.
    + apply Z.ltb_lt; lia.
    + apply Z.ltb_ge; lia.
Qed.

Lemma sub_gt_zero (a b : float) :
  PrimFloat.ltb 0 (a - b) = PrimFloat.ltb b a.
Proof.
  rewrite !FloatAxioms.ltb_spec, FloatAxioms.sub_spec.
  change (Prim2SF 0) with (S754_zero false).
  apply SFsub_sign; apply Prim2SF_valid.
Qed.

Lemma SFleb_trans (a b c : spec_float) :
  SFleb a b = true -> SFleb b c = true -> SFleb a c = true.
Proof.
  unfold SFleb.
  destruct a as [sa|sa| |sa ma ea], b as [sb|sb| |sb mb eb],
    c as [sc|sc| |sc mc ec]; cbn [SFcompare];
    try discriminate; try reflexivity;
    try (destruct sa; discriminate || reflexivity);
    try (destruct sb; discriminate || reflexivity);
    try (destruct sc; discriminate || reflexivity);
    try (destruct sa, sb; discriminate || reflexivity);
    try (destruct sa, sc; discriminate || reflexivity);
    try (destruct sb, sc; discriminate || reflexivity);
    try (destruct sa, sb, sc; discriminate || reflexivity).
  change (Pos.compare_cont Eq ma mb) with (Pos.compare ma mb).
  change (Pos.compare_cont Eq mb mc) with (Pos.compare mb mc).
  change (Pos.compare_cont Eq ma mc) with (Pos.compare ma mc).
  destruct sa, sb, sc; try discriminate; try reflexivity;
    destruct (Z.compare_spec ea eb), (Z.compare_spec eb ec),
      (Z.compare_spec ea ec); try discriminate; try reflexivity; try lia;
    subst;
    destruct (Pos.compare_spec ma mb), (Pos.compare_spec mb mc),
      (Pos.compare_spec ma mc); cbn [CompOpp];
    try discriminate; try reflexivity; try lia.
Qed.

Lemma leb_trans (x y z : float) :
  PrimFloat.leb x y = true -> PrimFloat.leb y z = true ->
  PrimFloat.leb x z = true.
Proof. rewrite !FloatAxioms.leb_spec. apply SFleb_trans. Qed.

Lemma ltb_leb (x y : float) :
  PrimFloat.ltb x y = true -> PrimFloat.leb x y = true.
Proof.
  rewrite FloatAxioms.ltb_spec, FloatAxioms.leb_spec. unfold SFltb, SFleb.
  destruct (SFcompare _ _) as [[ | | ]|]; intros H;
    (reflexivity || discriminate H).
Qed.

Lemma SFcompare_defined (a b : spec_float) :
  a <> S754_nan -> b <> S754_nan -> SFcompare a b <> None.
Proof.
  destruct a, b; cbn [SFcompare]; intros Ha Hb; try discriminate;
    contradiction.
Qed.

(** A number above another number is not a NaN; two numbers that are
    not NaN are comparable. *)
Lemma above_not_nan (c x : float) :
  PrimFloat.ltb c x = true -> Prim2SF x <> S754_nan.
Proof.
  rewrite FloatAxioms.ltb_spec. unfold SFltb. intros H E. rewrite E in H.
  destruct (Prim2SF c); discriminate H.
Qed.

Lemma not_ltb_leb (x y : float) :
  Prim2SF x <> S754_nan -> Prim2SF y <> S754_nan ->
  PrimFloat.ltb x y = false -> PrimFloat.leb y x = true.
Proof.
  intros Hx Hy. rewrite FloatAxioms.ltb_spec, FloatAxioms.leb_spec.
  unfold SFltb, SFleb.
  pose proof (SFcompare_defined _ _ Hx Hy) as Hd.
  rewrite (SFcompare_swap (Prim2SF x) (Prim2SF y)).
  destruct (SFcompare (Prim2SF x) (Prim2SF y)) as [[ | | ]|]; cbn;
    intros H; try reflexivity; try discriminate H. contradiction.
Qed.

End FloatSign.

(** ** The detection pipeline *)

Section OrderFacts.

Lemma ltb_irrefl (x : float) : PrimFloat.ltb x x = false.
Proof.
  rewrite FloatAxioms.ltb_spec. unfold SFltb.
  destruct (Prim2SF x) as [s|s| |s m e]; cbn [SFcompare];
    try reflexivity; try (destruct s; reflexivity).
  destruct s; rewrite Z.compare_refl;
    change (Pos.compare_cont Eq m m) with (Pos.compare m m);
    rewrite Pos.compare_refl; reflexivity.
Qed.

Lemma ltb_asym (x y : float) :
  PrimFloat.ltb x y = true -> PrimFloat.ltb y x = false.
Proof.
  rewrite !FloatAxioms.ltb_spec. unfold SFltb.
  rewrite (SFcompare_swap (Prim2SF x) (Prim2SF y)).
  destruct (SFcompare (Prim2SF x) (Prim2SF y)) as [[ | | ]|];
    cbn; intros H; (reflexivity || discriminate H).
Qed.

Lemma ltb_nan_r (x : float) : PrimFloat.ltb x PrimFloat.nan = false.
Proof.
  rewrite FloatAxioms.ltb_spec. unfold SFltb.
  change (Prim2SF PrimFloat.nan) with S754_nan.
  destruct (Prim2SF x); reflexivity.
Qed.

(** [Math.max(0, v)] is never below zero. *)
Lemma Math_max_zero_not_neg (v : float) :
  JS.lt (JS.Math_max 0 v) 0 = false.
Proof.
  unfold JS.lt, JS.Math_max.
  change (PrimFloat.is_nan 0) with false. cbn [orb].
  destruct (PrimFloat.is_nan v); [reflexivity|].
  destruct (PrimFloat.ltb v 0) eqn:E1; [reflexivity|].
  destruct (PrimFloat.ltb 0 v) eqn:E2; [exact E1|].
  reflexivity.
Qed.

(** [Math.max(0, v)] is [v] itself for a positive [v]. *)
Lemma Math_max_zero_pos (v : float) :
  JS.gt v 0 = true -> JS.Math_max 0 v = v.
Proof.
  unfold JS.gt, JS.Math_max. intros H.
  change (PrimFloat.is_nan 0) with false. cbn [orb].
  assert (Hn : PrimFloat.is_nan v = false).
  { unfold PrimFloat.is_nan.
    rewrite FloatAxioms.eqb_spec. rewrite FloatAxioms.ltb_spec in H.
    change (Prim2SF 0) with (S754_zero false) in H.
    unfold SFeqb. unfold SFltb in H.
    destruct (Prim2SF v) as [s|s| |s m e]; cbn [SFcompare] in *;
      try discriminate H; try reflexivity;
      destruct s; try discriminate H; try reflexivity.
    rewrite Z.compare_refl.
    change (Pos.compare_cont Eq m m) with (Pos.compare m m).
    rewrite Pos.compare_refl. reflexivity. }
  rewrite Hn, (ltb_asym _ _ H), H. reflexivity.
Qed.

(** [Math.min(a, b)] exceeds neither argument. *)
Lemma Math_min_not_above (a b : float) :
  JS.gt (JS.Math_min a b) a = false /\ JS.gt (JS.Math_min a b) b = false.
Proof.
  unfold JS.gt, JS.Math_min.
  destruct (PrimFloat.is_nan a || PrimFloat.is_nan b).
  { split; apply ltb_nan_r. }
  destruct (PrimFloat.ltb a b) eqn:E1.
  { split; [apply ltb_irrefl | apply (ltb_asym _ _ E1)]. }
  destruct (PrimFloat.ltb b a) eqn:E2.
  { split; [exact E1 | apply ltb_irrefl]. }
  destruct (PrimFloat.get_sign a); split;
    first [apply ltb_irrefl | assumption].
Qed.

End OrderFacts.

Section ArrayFacts.

Context {T U : Type}.

Lemma Arr_map_Forall2 (f : T -> completion U) (l : list T) (ys : list U) :
  Arr.map f l = Normal ys -> Forall2 (fun x y => f x = Normal y) l ys.
Proof.
  revert ys. induction l as [|x l IH]; intros ys H; cbn [Arr.map] in H.
  - injection H as <-. constructor.
  - destruct (f x) as [y|e] eqn:Hx; [|discriminate H].
    destruct (Arr.map f l) as [ys'|e]; [|discriminate H].
    injection H as <-. constructor; [exact Hx | apply IH; reflexivity].
Qed.

Lemma Arr_map_throw_iff (f : T -> completion U) (l : list T) :
  (exists e, Arr.map f l = Abrupt e)
  <-> exists x, In x l /\ exists e, f x = Abrupt e.
Proof.
  induction l as [|x l IH]; cbn [Arr.map In].
  - split; [intros [e H]; discriminate H | intros (x & [] & _)].
  - destruct (f x) as [y|e] eqn:Hx.
    + destruct (Arr.map f l) as [ys|e'].
      * split; [intros [e H]; discriminate H|].
        intros (x' & [<- | Hin] & e & He); [congruence|].
        destruct (proj2 IH (ex_intro _ x' (conj Hin (ex_intro _ e He))))
          as [e0 H0]. discriminate H0.
      * split; [|intros _; exists e'; reflexivity].
        intros _. destruct (proj1 IH (ex_intro _ e' eq_refl))
          as (x' & Hin & He).
        exists x'. split; [right; exact Hin | exact He].
    + split; [|intros _; exists e; reflexivity].
      intros _. exists x. split; [left; reflexivity | exists e; exact Hx].
Qed.

Lemma Arr_map_ext (f g : T -> completion U) (l : list T) :
  (forall x, In x l -> f x = g x) -> Arr.map f l = Arr.map g l.
Proof.
  induction l as [|x l IH]; intros H; cbn [Arr.map]; [reflexivity|].
  rewrite (H x (or_introl eq_refl)), IH; [reflexivity|].
  intros y Hy. apply H. right. exact Hy.
Qed.

Lemma Forall2_In_l (P : T -> U -> Prop) (l : list T) (l' : list U) (x : T) :
  Forall2 P l l' -> In x l -> exists y, In y l' /\ P x y.
Proof.
  induction 1 as [|a b l l' Hab _ IH]; intros Hin; [destruct Hin|].
  destruct Hin as [<- | Hin].
  - exists b. split; [left; reflexivity | exact Hab].
  - destruct (IH Hin) as (y & Hy & Hxy). exists y. split; [right|]; assumption.
Qed.

Lemma Forall2_In_r (P : T -> U -> Prop) (l : list T) (l' : list U) (y : U) :
  Forall2 P l l' -> In y l' -> exists x, In x l /\ P x y.
Proof.
  induction 1 as [|a b l l' Hab _ IH]; intros Hin; [destruct Hin|].
  destruct Hin as [<- | Hin].
  - exists a. split; [left; reflexivity | exact Hab].
  - destruct (IH Hin) as (x & Hx & Hxy). exists x. split; [right|]; assumption.
Qed.

Lemma insert_perm (compare : T -> T -> float) (x : T) (l : list T) :
  Permutation (Arr.insert compare x l) (x :: l).
Proof.
  induction l as [|y l IH]; cbn [Arr.insert]; [reflexivity|].
  destruct (JS.gt (compare x y) 0); [|reflexivity].
  rewrite IH. apply perm_swap.
Qed.

Lemma sort_perm (compare : T -> T -> float) (l : list T) :
  Permutation (Arr.sort compare l) l.
Proof.
  unfold Arr.sort. induction l as [|x l IH]; cbn [fold_right];
    [reflexivity|].
  rewrite insert_perm. constructor. exact IH.
Qed.

End ArrayFacts.

Section PipelineProps.

Variable toLowerCase : string -> string.
Variables imgWidth imgHeight : float.
Variable getImageData :
  float -> float -> float -> float -> completion (option ImageData).

Local Open Scope string_scope.

Local Abbreviation candidate := (isCandidate toLowerCase).
Local Abbreviation detect := (toDetection imgWidth imgHeight getImageData).
Local Abbreviation pipeline :=
  (trafficLightDetections toLowerCase imgWidth imgHeight getImageData).

Lemma analyze_labels (imageData : option ImageData) (label : string) :
  analyzeTrafficLightColor imageData = Normal label ->
  In label ["Green"; "Red"; "Yellow"; "Unknown"].
Proof.
  destruct imageData as [img|]; [|intros H; injection H as <-; cbn; auto].
  rewrite analyze_tiers.
  destruct (brightTier (scan (data img))) as [l|] eqn:Hb.
  { intros H; injection H as <-.
    pose proof (tier_labels _ _ (or_introl Hb)) as H. cbn in H |- *. tauto. }
  destruct (dimTier (scan (data img))) as [l|] eqn:Hd.
  { intros H; injection H as <-.
    pose proof (tier_labels _ _ (or_intror (or_introl Hd))) as H.
    cbn in H |- *. tauto. }
  destruct (veryDimTier (scan (data img))) as [l|] eqn:Hv.
  { intros H; injection H as <-.
    pose proof (tier_labels _ _ (or_intror (or_intror Hv))) as H.
    cbn in H |- *. tauto. }
  destruct (overallGreen (data img)); intros H; injection H as <-;
    cbn; auto.
Qed.

Lemma analyze_never_throws (imageData : option ImageData) (e : string) :
  analyzeTrafficLightColor imageData <> Abrupt e.
Proof.
  destruct imageData as [img|]; [|discriminate].
  rewrite analyze_tiers.
  destruct (brightTier _); [discriminate|].
  destruct (dimTier _); [discriminate|].
  destruct (veryDimTier _); discriminate.
Qed.

(** What a successful call of the [map] callback returns. *)
Lemma detect_ok (item : Item.t) (d : Detection.t) :
  detect item = Normal d ->
  exists imageData,
    getImageData (JS.Math_max 0 (xmin (Item.box item)))
                 (JS.Math_max 0 (ymin (Item.box item)))
                 (snd (fst (cropRect imgWidth imgHeight (Item.box item))))
                 (snd (cropRect imgWidth imgHeight (Item.box item)))
      = Normal imageData
    /\ analyzeTrafficLightColor imageData = Normal (Detection.label d)
    /\ Detection.confidence d = Item.score item
    /\ Detection.bbox d =
       (JS.Math_max 0 (xmin (Item.box item)),
        JS.Math_max 0 (ymin (Item.box item)),
        xmax (Item.box item), ymax (Item.box item)).
Proof.
  unfold toDetection, cropRect. cbn [fst snd].
  destruct (getImageData _ _ _ _) as [imageData|e]; [|discriminate].
  destruct (analyzeTrafficLightColor imageData) as [color|e] eqn:Hc;
    [|discriminate].
  intros H; injection H as <-. exists imageData. cbn. auto.
Qed.

Lemma detect_throws (item : Item.t) :
  (exists e, detect item = Abrupt e)
  <-> exists e,
        getImageData (JS.Math_max 0 (xmin (Item.box item)))
                     (JS.Math_max 0 (ymin (Item.box item)))
                     (snd (fst (cropRect imgWidth imgHeight (Item.box item))))
                     (snd (cropRect imgWidth imgHeight (Item.box item)))
        = Abrupt e.
Proof.
  unfold toDetection, cropRect. cbn [fst snd].
  destruct (getImageData _ _ _ _) as [imageData|e].
  - destruct (analyzeTrafficLightColor imageData) as [color|e] eqn:Hc.
    + split; intros [e H]; discriminate H.
    + exfalso. exact (analyze_never_throws _ _ Hc).
  - split; intros _; exists e; reflexivity.
Qed.

Lemma illuminated_spec (d : Detection.t) :
  isIlluminated d = true
  <-> In (Detection.label d) ["Red"; "Yellow"; "Green"]
      /\ JS.gt (Detection.confidence d) 0.1 = true.
Proof.
  unfold isIlluminated. rewrite andb_true_iff, existsb_exists.
  split.
  - intros [(l & Hin & Heq) Hc]. apply String.eqb_eq in Heq.
    subst l. auto.
  - intros [Hin Hc]. split; [|exact Hc].
    exists (Detection.label d). split; [exact Hin | apply String.eqb_refl].
Qed.

(** The detections of a successful run are the illuminated results of
    the candidates. *)
Lemma pipeline_members (results : list Item.t) (dets : list Detection.t) :
  pipeline results = Normal dets ->
  forall d,
    In d dets
    <-> isIlluminated d = true
        /\ exists item,
             In item results /\ candidate item = true
             /\ detect item = Normal d.
Proof.
  unfold trafficLightDetections.
  destruct (Arr.map detect (filter candidate results)) as [mapped|e] eqn:Hm;
    [|discriminate].
  intros H; injection H as <-. intros d.
  apply Arr_map_Forall2 in Hm.
  pose proof (sort_perm byConfidence (filter isIlluminated mapped)) as Hp.
  split.
  - intros Hin. apply (Permutation_in _ Hp), filter_In in Hin.
    destruct Hin as [Hin Hill]. split; [exact Hill|].
    destruct (Forall2_In_r _ _ _ _ Hm Hin) as (item & Hitem & Hd).
    apply filter_In in Hitem. exists item. tauto.
  - intros [Hill (item & Hin & Hc & Hd)].
    apply (Permutation_in _ (Permutation_sym Hp)), filter_In.
    split; [|exact Hill].
    assert (Hitem : In item (filter candidate results))
      by (apply filter_In; auto).
    destruct (Forall2_In_l _ _ _ _ Hm Hitem) as (d' & Hd' & Heq).
    congruence.
Qed.

(** X9: every detection of a successful run is labelled "Red", "Yellow"
    or "Green" (never "Unknown", never the label of the detector), has a
    confidence above 0.1 and a [bbox] whose first corner is not negative;
    and there are at most as many detections as detector results. *)
Theorem pipeline_detections_illuminated
  (results : list Item.t) (dets : list Detection.t) :
  pipeline results = Normal dets ->
  Forall (fun d =>
            In (Detection.label d) ["Red"; "Yellow"; "Green"]
            /\ JS.gt (Detection.confidence d) 0.1 = true
            /\ JS.lt (fst (fst (fst (Detection.bbox d)))) 0 = false
            /\ JS.lt (snd (fst (fst (Detection.bbox d)))) 0 = false)
         dets
  /\ (length dets <= length results)%nat.
Proof.
  intros Hrun. split.
  - apply Forall_forall. intros d Hd.
    apply (pipeline_members _ _ Hrun) in Hd.
    destruct Hd as [Hill (item & _ & _ & Hdet)].
    apply illuminated_spec in Hill. destruct Hill as [Hl Hc].
    destruct (detect_ok _ _ Hdet) as (_ & _ & _ & _ & Hb).
    rewrite Hb. cbn [fst snd].
    repeat split; try assumption; apply Math_max_zero_not_neg.
  - unfold trafficLightDetections in Hrun.
    destruct (Arr.map detect (filter candidate results)) as [mapped|e] eqn:Hm;
      [|discriminate].
    injection Hrun as <-.
    rewrite (Permutation_length (sort_perm byConfidence _)).
    apply Arr_map_Forall2, Forall2_length in Hm.
    pose proof (filter_length_le isIlluminated mapped).
    pose proof (filter_length_le candidate results).
    lia.
Qed.

(** X10: a successful run keeps exactly the candidates whose crop is not
    classified "Unknown": a detection is in the list if and only if it
    is what the [map] callback returns for some candidate result (a
    result with a score above 0.1 and a keyword in its lower-cased label)
    and its label is not "Unknown".  Its confidence is the score of that
    result and its [bbox] is the box of that result with the first
    corner raised to zero. *)
Theorem pipeline_keeps_classified_candidates
  (results : list Item.t) (dets : list Detection.t) :
  pipeline results = Normal dets ->
  forall d,
    In d dets
    <-> exists item,
          In item results /\ candidate item = true
          /\ detect item = Normal d
          /\ Detection.label d <> "Unknown"
          /\ Detection.confidence d = Item.score item
          /\ Detection.bbox d =
             (JS.Math_max 0 (xmin (Item.box item)),
              JS.Math_max 0 (ymin (Item.box item)),
              xmax (Item.box item), ymax (Item.box item)).
Proof.
  intros Hrun d. rewrite (pipeline_members _ _ Hrun d). split.
  - intros [Hill (item & Hin & Hc & Hdet)].
    apply illuminated_spec in Hill. destruct Hill as [Hl _].
    destruct (detect_ok _ _ Hdet) as (_ & _ & _ & Hs & Hb).
    exists item. repeat split; try assumption.
    intros Hu. rewrite Hu in Hl. cbn in Hl.
    destruct Hl as [H | [H | [H | []]]]; discriminate H.
  - intros (item & Hin & Hc & Hdet & Hu & Hs & Hb).
    split; [|exists item; auto].
    apply illuminated_spec.
    destruct (detect_ok _ _ Hdet) as (imageData & _ & Hlab & _ & _).
    apply analyze_labels in Hlab. split.
    + cbn in Hlab |- *.
      destruct Hlab as [H | [H | [H | [H | []]]]]; auto;
        symmetry in H; contradiction.
    + rewrite Hs. unfold isCandidate in Hc.
      apply andb_true_iff in Hc. tauto.
Qed.

(** X11: the run is all or nothing.  It fails exactly when
    [getImageData] throws for the crop of some candidate result, and
    then no detection at all is produced; classification itself never
    makes it fail. *)
Theorem pipeline_all_or_nothing (results : list Item.t) :
  (exists e, pipeline results = Abrupt e)
  <-> exists item,
        In item results /\ candidate item = true
        /\ exists e,
             getImageData
               (JS.Math_max 0 (xmin (Item.box item)))
               (JS.Math_max 0 (ymin (Item.box item)))
               (snd (fst (cropRect imgWidth imgHeight (Item.box item))))
               (snd (cropRect imgWidth imgHeight (Item.box item)))
             = Abrupt e.
Proof.
  unfold trafficLightDetections.
  pose proof (Arr_map_throw_iff detect (filter candidate results)) as Hthrow.
  destruct (Arr.map detect (filter candidate results)) as [mapped|e].
  - split.
    + intros [e H]; discriminate H.
    + intros (item & Hin & Hc & He). apply detect_throws in He.
      assert (Hex : exists x, In x (filter candidate results)
                              /\ exists e, detect x = Abrupt e)
        by (exists item; split; [apply filter_In; auto | exact He]).
      apply Hthrow in Hex. destruct Hex as [e H]. discriminate H.
  - split; [|intros _; exists e; reflexivity].
    intros _.
    destruct (proj1 Hthrow (ex_intro _ e eq_refl)) as (item & Hin & He).
    apply filter_In in Hin. apply detect_throws in He.
    exists item. tauto.
Qed.

End PipelineProps.

Section PipelineReads.

Variable toLowerCase : string -> string.
Variables imgWidth imgHeight : float.

(** X12: only the crops of candidate results are read from the canvas:
    two canvases that answer alike on the crop rectangle of every
    candidate result give the same run, whatever else they hold. *)
Theorem pipeline_reads_candidate_crops
  (getImageData getImageData' :
     float -> float -> float -> float -> completion (option ImageData))
  (results : list Item.t) :
  (forall item,
      In item results -> isCandidate toLowerCase item = true ->
      getImageData
        (JS.Math_max 0 (xmin (Item.box item)))
        (JS.Math_max 0 (ymin (Item.box item)))
        (snd (fst (cropRect imgWidth imgHeight (Item.box item))))
        (snd (cropRect imgWidth imgHeight (Item.box item)))
      = getImageData'
          (JS.Math_max 0 (xmin (Item.box item)))
          (JS.Math_max 0 (ymin (Item.box item)))
          (snd (fst (cropRect imgWidth imgHeight (Item.box item))))
          (snd (cropRect imgWidth imgHeight (Item.box item)))) ->
  trafficLightDetections toLowerCase imgWidth imgHeight getImageData results
  = trafficLightDetections toLowerCase imgWidth imgHeight getImageData'
      results.
Proof.
  intros Hsame. unfold trafficLightDetections.
  rewrite (Arr_map_ext
             (toDetection imgWidth imgHeight getImageData)
             (toDetection imgWidth imgHeight getImageData')); [reflexivity|].
  intros item Hin. apply filter_In in Hin. destruct Hin as [Hin Hc].
  unfold toDetection, cropRect in *. cbn [fst snd] in *.
  rewrite (Hsame item Hin Hc). reflexivity.
Qed.

(** X13: the rectangle cropped for a box never starts left of or above
    the image, and it is neither wider nor higher than the box nor than
    the room the image leaves from its origin; for a box whose first
    corner is positive it starts at that corner. *)
Theorem crop_within_box_and_image (box : Box) :
  let '(x, y, width, height) := cropRect imgWidth imgHeight box in
  (JS.lt x 0 = false /\ JS.lt y 0 = false)
  /\ (JS.gt width (imgWidth - x) = false
      /\ JS.gt width (xmax box - xmin box) = false)
  /\ (JS.gt height (imgHeight - y) = false
      /\ JS.gt height (ymax box - ymin box) = false)
  /\ (JS.gt (xmin box) 0 = true -> x = xmin box)
  /\ (JS.gt (ymin box) 0 = true -> y = ymin box).
Proof.
  unfold cropRect.
  split; [split; apply Math_max_zero_not_neg|].
  split; [apply Math_min_not_above|].
  split; [apply Math_min_not_above|].
  split; apply Math_max_zero_pos.
Qed.

End PipelineReads.

(** ** Order of the detections *)

Section SortedDetections.

Local Open Scope string_scope.

Lemma byConfidence_test (x y : Detection.t) :
  JS.gt (byConfidence x y) 0 =
  PrimFloat.ltb (Detection.confidence x) (Detection.confidence y).
Proof. unfold JS.gt, byConfidence. apply sub_gt_zero. Qed.

Lemma insert_by_confidence (x : Detection.t) (l : list Detection.t) :
  Forall (fun d => JS.gt (Detection.confidence d) 0.1 = true) (x :: l) ->
  StronglySorted byDescendingConfidence l ->
  StronglySorted byDescendingConfidence (Arr.insert byConfidence x l).
Proof.
  intros Hall Hsorted. induction Hsorted as [|y l Hl IH Hy].
  - cbn. repeat constructor.
  - cbn [Arr.insert]. rewrite byConfidence_test.
    inversion Hall as [|? ? Hx Hyl]; subst.
    inversion Hyl as [|? ? Hy' Hl']; subst.
    pose proof (above_not_nan _ _ Hx) as Nx.
    pose proof (above_not_nan _ _ Hy') as Ny.
    destruct (PrimFloat.ltb (Detection.confidence x) (Detection.confidence y))
      eqn:E.
    + constructor.
      * apply IH. constructor; assumption.
      * apply (Permutation_Forall
                 (Permutation_sym (insert_perm byConfidence x l))).
        constructor; [|exact Hy].
        unfold byDescendingConfidence. apply ltb_leb. exact E.
    + assert (Hxy : byDescendingConfidence x y)
        by (apply not_ltb_leb; assumption).
      constructor; [constructor; assumption|].
      constructor; [exact Hxy|].
      eapply Forall_impl; [|exact Hy].
      intros z Hz. unfold byDescendingConfidence in *.
      exact (leb_trans _ _ _ Hz Hxy).
Qed.

Lemma sort_by_confidence (l : list Detection.t) :
  Forall (fun d => JS.gt (Detection.confidence d) 0.1 = true) l ->
  StronglySorted byDescendingConfidence (Arr.sort byConfidence l).
Proof.
  unfold Arr.sort. induction 1 as [|x l Hx Hl IH]; cbn [fold_right].
  - constructor.
  - apply insert_by_confidence; [|exact IH].
    constructor; [exact Hx|].
    apply (Permutation_Forall (Permutation_sym (sort_perm byConfidence l))).
    exact Hl.
Qed.

Variable toLowerCase : string -> string.
Variables imgWidth imgHeight : float.
Variable getImageData :
  float -> float -> float -> float -> completion (option ImageData).

(** X14: the detections of a successful run are in descending order of
    confidence: each one is at least as confident as every one after it.
    The comparator subtracts the confidences, and the sign of the
    difference of two numbers above 0.1 is their order. *)
Theorem pipeline_sorted_by_confidence
  (results : list Item.t) (dets : list Detection.t) :
  trafficLightDetections toLowerCase imgWidth imgHeight getImageData results
  = Normal dets ->
  StronglySorted byDescendingConfidence dets.
Proof.
  unfold trafficLightDetections.
  destruct (Arr.map _ _) as [mapped|e]; [|discriminate].
  intros H; injection H as <-.
  apply sort_by_confidence, Forall_forall.
  intros d Hd. apply filter_In in Hd. destruct Hd as [_ Hill].
  unfold isIlluminated in Hill. apply andb_true_iff in Hill. tauto.
Qed.

End SortedDetections.

(** ** Presentation of a detection *)

Section Presentation.

Local Open Scope string_scope.

Variable toLowerCase : string -> string.
Variables imgWidth imgHeight : float.
Variable getImageData :
  float -> float -> float -> float -> completion (option ImageData).

Hypothesis lower_red : toLowerCase "Red" = "red".
Hypothesis lower_yellow : toLowerCase "Yellow" = "yellow".
Hypothesis lower_green : toLowerCase "Green" = "green".

(** X15: every detection of a successful run is shown in the colour of
    its label: on the canvas and in the badge a "Red" detection is red,
    a "Yellow" one amber and a "Green" one green.  The fallback colours
    (blue box, primary badge) are never used for a detection of the
    pipeline. *)
Theorem pipeline_detections_shown_in_colour
  (results : list Item.t) (dets : list Detection.t) :
  trafficLightDetections toLowerCase imgWidth imgHeight getImageData results
  = Normal dets ->
  Forall (fun d =>
            (Detection.label d = "Red"
             /\ boxColors toLowerCase (Detection.label d)
                = ("#ef4444", "#dc2626")
             /\ getTrafficLightColor toLowerCase (Detection.label d)
                = "bg-traffic-red/20 text-traffic-red border-traffic-red/30")
            \/ (Detection.label d = "Yellow"
                /\ boxColors toLowerCase (Detection.label d)
                   = ("#f59e0b", "#d97706")
                /\ getTrafficLightColor toLowerCase (Detection.label d)
                   = "bg-traffic-yellow/20 text-traffic-yellow border-traffic-yellow/30")
            \/ (Detection.label d = "Green"
                /\ boxColors toLowerCase (Detection.label d)
                   = ("#10b981", "#059669")
                /\ getTrafficLightColor toLowerCase (Detection.label d)
                   = "bg-traffic-green/20 text-traffic-green border-traffic-green/30"))
         dets.
Proof.
  intros Hrun. apply Forall_forall. intros d Hd.
  apply (pipeline_members _ _ _ _ _ _ Hrun) in Hd.
  destruct Hd as [Hill _]. apply illuminated_spec in Hill.
  destruct Hill as [Hl _]. cbn in Hl.
  unfold boxColors, getTrafficLightColor.
  destruct Hl as [H | [H | [H | []]]]; rewrite <- H.
  - left. rewrite lower_red. repeat split.
  - right; left. rewrite lower_yellow. repeat split.
  - right; right. rewrite lower_green. repeat split.
Qed.

End Presentation.

Section ConfidenceWording.

Local Open Scope string_scope.

(** X16: the wording of a confidence is "High", "Medium" or "Low" and
    never goes down when the confidence goes up: above a "High"
    confidence everything is "High", above a "Medium" one nothing is
    "Low". *)
Theorem confidenceLevel_monotone (c1 c2 : float) :
  PrimFloat.leb c1 c2 = true ->
  In (confidenceLevel c2) ["High"; "Medium"; "Low"]
  /\ (confidenceLevel c1 = "High" -> confidenceLevel c2 = "High")
  /\ (confidenceLevel c1 = "Medium" ->
      confidenceLevel c2 = "High" \/ confidenceLevel c2 = "Medium").
Proof.
  intros Hle. unfold confidenceLevel, JS_ge.
  destruct (PrimFloat.leb 0.8 c1) eqn:H1.
  { rewrite (leb_trans _ _ _ H1 Hle). cbn. auto 6. }
  destruct (PrimFloat.leb 0.6 c1) eqn:H2.
  { rewrite (leb_trans _ _ _ H2 Hle).
    destruct (PrimFloat.leb 0.8 c2); cbn; repeat split; auto;
      intros H; discriminate H. }
  destruct (PrimFloat.leb 0.8 c2), (PrimFloat.leb 0.6 c2); cbn;
    repeat split; auto; intros H; discriminate H.
Qed.

Lemma confidenceLevel_monotone_witness :
  PrimFloat.leb 0.65 0.9 = true
  /\ confidenceLevel 0.65 = "Medium"
  /\ (confidenceLevel 0.9 = "High" \/ confidenceLevel 0.9 = "Medium").
Proof.
  assert (Hle : PrimFloat.leb 0.65 0.9 = true) by reflexivity.
  assert (Hm : confidenceLevel 0.65 = "Medium") by reflexivity.
  split; [exact Hle|]. split; [exact Hm|].
  exact (proj2 (proj2 (confidenceLevel_monotone 0.65 0.9 Hle)) Hm).
Defined.

End ConfidenceWording.

(** ** The pipeline on a sample image *)

Section SampleRun.

Local Open Scope string_scope.

Lemma sample_run :
  trafficLightDetections Str.toLowerCaseAscii 640 480 sampleCanvas
    sampleResults
  = Normal sampleDetections.
Proof. vm_compute. reflexivity. Qed.

Lemma pipeline_detections_illuminated_witness :
  trafficLightDetections Str.toLowerCaseAscii 640 480 sampleCanvas
    sampleResults = Normal sampleDetections
  /\ (length sampleDetections <= length sampleResults)%nat.
Proof.
  split; [exact sample_run|].
  exact (proj2 (pipeline_detections_illuminated Str.toLowerCaseAscii 640 480
                  sampleCanvas sampleResults sampleDetections sample_run)).
Defined.

Lemma pipeline_keeps_classified_candidates_witness :
  trafficLightDetections Str.toLowerCaseAscii 640 480 sampleCanvas
    sampleResults = Normal sampleDetections
  /\ exists item,
       In item sampleResults
       /\ Item.score item = 0.9%float
       /\ Item.label item = "Traffic Light".
Proof.
  split; [exact sample_run|].
  destruct (proj1 (pipeline_keeps_classified_candidates
                     Str.toLowerCaseAscii 640 480 sampleCanvas
                     sampleResults sampleDetections sample_run
                     {| Detection.label := "Green";
                        Detection.confidence := 0.9;
                        Detection.bbox := (150, 30, 170, 80)%float |})
                  (or_introl eq_refl))
    as (item & Hin & _ & Hdet & _ & Hs & _).
  exists item. split; [exact Hin|]. split; [symmetry; exact Hs|].
  cbn in Hin.
  destruct Hin as [<- | [<- | [<- | [<- | []]]]];
    first [reflexivity | discriminate Hs | (vm_compute in Hdet; discriminate Hdet)].
Defined.

Lemma pipeline_reads_candidate_crops_witness :
  trafficLightDetections Str.toLowerCaseAscii 640 480 sampleCanvasGuarded
    sampleResults
  = Normal sampleDetections.
Proof.
  rewrite <- sample_run. symmetry.
  apply (pipeline_reads_candidate_crops Str.toLowerCaseAscii 640 480
           sampleCanvas sampleCanvasGuarded sampleResults).
  intros item Hin Hc. cbn in Hin.
  destruct Hin as [<- | [<- | [<- | [<- | []]]]];
    first [vm_compute; reflexivity | (vm_compute in Hc; discriminate Hc)].
Defined.

Lemma pipeline_sorted_by_confidence_witness :
  trafficLightDetections Str.toLowerCaseAscii 640 480 sampleCanvas
    sampleResults = Normal sampleDetections
  /\ StronglySorted byDescendingConfidence sampleDetections.
Proof.
  split; [exact sample_run|].
  exact (pipeline_sorted_by_confidence Str.toLowerCaseAscii 640 480
           sampleCanvas sampleResults sampleDetections sample_run).
Defined.

Lemma pipeline_detections_shown_in_colour_witness :
  Str.toLowerCaseAscii "Red" = "red"
  /\ Str.toLowerCaseAscii "Yellow" = "yellow"
  /\ Str.toLowerCaseAscii "Green" = "green"
  /\ boxColors Str.toLowerCaseAscii "Green" = ("#10b981", "#059669").
Proof.
  assert (H1 : Str.toLowerCaseAscii "Red" = "red") by reflexivity.
  assert (H2 : Str.toLowerCaseAscii "Yellow" = "yellow") by reflexivity.
  assert (H3 : Str.toLowerCaseAscii "Green" = "green") by reflexivity.
  split; [exact H1|]. split; [exact H2|]. split; [exact H3|].
  pose proof (pipeline_detections_shown_in_colour Str.toLowerCaseAscii
                640 480 sampleCanvas H1 H2 H3 sampleResults sampleDetections
                sample_run) as Hall.
  inversion Hall as [|d l Hd _]; subst.
  destruct Hd as [(Hl & _) | [(Hl & _) | (_ & Hb & _)]];
    [discriminate Hl | discriminate Hl | exact Hb].
Defined.

End SampleRun.
